(** * terraconf: the resource config renderer

    A shallow embedding of package [terraconf] (the renderer that turns a
    Terraform resource state into HCL block text) and of the older copy of
    the same functions kept in [main.go], with the properties of the
    renderer stated and proved over that embedding.

    Conventions of the embedding.
    - A Go [string] is a sequence of bytes: Rocq's [string].
    - A Go [interface{}] is a [value]: its dynamic type is the constructor.
    - A Go map handed to or built by the renderer is a [gmap] (or [gset] for
      [map[string]struct{}]); the order in which a [range] statement visits
      such a map is not fixed by Go, and is an explicit parameter
      ([go_range]) constrained only to visit every entry once.
    - A map nested inside a [value] is kept as the list of its entries in the
      order in which the [range] statement of this run visits them; two lists
      that are permutations of each other stand for the same Go map.
    - A failed type assertion is a run-time panic: functions that can reach
      one return an [outcome]. *)

From Stdlib Require Import ZArith Ascii String List.
From Stdlib Require Import DecimalString DecimalPos DecimalZ.
From stdpp Require Import base option list sorting strings gmap.

#[local] Open Scope Z_scope.
#[local] Set Warnings "-register-all".

(* ================================================================== *)
(** ** Strings *)

Module GoString.

(** [contains t s]: the text [t] occurs in [s] as a contiguous run. *)
Definition contains (t s : string) : Prop :=
  exists pre post, s = pre +:+ t +:+ post.

(** [starts_with t s]: [s] begins with [t]. *)
Definition starts_with (t s : string) : Prop :=
  exists post, s = t +:+ post.

(** [mem c s]: the byte [c] occurs in [s]. *)
Fixpoint mem (c : ascii) (s : string) : bool :=
  match s with
  | EmptyString => false
  | String d s' => if Ascii.eqb c d then true else mem c s'
  end.

(** [concat l]: the texts of [l] one after the other. *)
Definition concat (l : list string) : string :=
  fold_right String.append EmptyString l.

(** [drop n s]: the Go slice [s[n:]] (the whole of [s] is dropped when it is
    shorter than [n]). *)
Fixpoint drop (n : nat) (s : string) : string :=
  match n, s with
  | O, _ => s
  | S _, EmptyString => EmptyString
  | S n', String _ s' => drop n' s'
  end.

(** The value of a byte, and the byte of a value below 256. *)
Definition byte_val (c : ascii) : Z := Z.of_N (N_of_ascii c).
Definition to_byte (z : Z) : ascii := ascii_of_N (Z.to_N z).

(** A string of bytes below 0x80. *)
Fixpoint is_ascii (s : string) : bool :=
  match s with
  | EmptyString => true
  | String c s' => (byte_val c <? 0x80) && is_ascii s'
  end.

End GoString.

(* ================================================================== *)
(** ** Library functions used by the renderer *)

(** [strings.Replace(s, old, new, -1)] for one-byte [old] and [new]: every
    occurrence of the byte is replaced. *)
Fixpoint strings_Replace_all (s : string) (old new : ascii) : string :=
  match s with
  | EmptyString => EmptyString
  | String c s' =>
      String (if Ascii.eqb c old then new else c)
             (strings_Replace_all s' old new)
  end.

(** [strings.SplitN(s, sep, 2)] for a one-byte separator: the text before the
    first separator and, when there is a separator, the text after it. *)
Fixpoint strings_SplitN_2 (s : string) (sep : ascii) : list string :=
  match s with
  | EmptyString => [EmptyString]
  | String c s' =>
      if Ascii.eqb c sep then [EmptyString; s']
      else match strings_SplitN_2 s' sep with
           | [] => [String c EmptyString]
           | hd :: tl => String c hd :: tl
           end
  end.

(** [fmt.Sprintf("%d", n)]: an optional minus sign and the decimal digits. *)
Definition fmt_d (n : Z) : string :=
  NilZero.string_of_int (Z.to_int n).

(** [fmt.Sprintf("%t", b)]. *)
Definition fmt_t (b : bool) : string :=
  if b then "true" else "false".

(** [sort.Strings]: the names in increasing byte-wise order. Go's algorithm
    is not stable, which cannot be observed on strings: [sort_Strings_unique]
    below shows that the sorted arrangement of a list is unique. *)
Definition sort_Strings (l : list string) : list string :=
  merge_sort String.le l.

(** *** Package [unicode/utf8] *)

Module utf8.
Import GoString.

Definition RuneError : Z := 0xFFFD.
Definition MaxRune : Z := 0x10FFFF.

Definition between (lo hi b : Z) : bool := (lo <=? b) && (b <=? hi).

(** The table [first] with [acceptRanges]: for a leading byte, the length of
    the sequence and the range accepted for its second byte. *)
Definition first (b0 : Z) : option (nat * Z * Z) :=
  if between 0xC2 0xDF b0 then Some (2%nat, 0x80, 0xBF)
  else if b0 =? 0xE0 then Some (3%nat, 0xA0, 0xBF)
  else if between 0xE1 0xEC b0 then Some (3%nat, 0x80, 0xBF)
  else if b0 =? 0xED then Some (3%nat, 0x80, 0x9F)
  else if between 0xEE 0xEF b0 then Some (3%nat, 0x80, 0xBF)
  else if b0 =? 0xF0 then Some (4%nat, 0x90, 0xBF)
  else if between 0xF1 0xF3 b0 then Some (4%nat, 0x80, 0xBF)
  else if b0 =? 0xF4 then Some (4%nat, 0x80, 0x8F)
  else None.

(** [utf8.DecodeRuneInString]: the first rune of [s] and its width in bytes;
    [(RuneError, 1)] for a byte that starts no valid sequence. *)
Definition DecodeRuneInString (s : string) : Z * nat :=
  match s with
  | EmptyString => (RuneError, 0%nat)
  | String c0 s1 =>
      let s0 := byte_val c0 in
      if s0 <? 0x80 then (s0, 1%nat)
      else
        match first s0, s1 with
        | Some (sz, lo, hi), String c1 s2 =>
            let b1 := byte_val c1 in
            if negb (between lo hi b1) then (RuneError, 1%nat)
            else if (sz <=? 2)%nat then
              (Z.lor (Z.shiftl (Z.land s0 0x1F) 6) (Z.land b1 0x3F), 2%nat)
            else
              match s2 with
              | String c2 s3 =>
                  let b2 := byte_val c2 in
                  if negb (between 0x80 0xBF b2) then (RuneError, 1%nat)
                  else if (sz <=? 3)%nat then
                    (Z.lor (Z.lor (Z.shiftl (Z.land s0 0x0F) 12)
                                  (Z.shiftl (Z.land b1 0x3F) 6))
                           (Z.land b2 0x3F), 3%nat)
                  else
                    match s3 with
                    | String c3 _ =>
                        let b3 := byte_val c3 in
                        if negb (between 0x80 0xBF b3) then (RuneError, 1%nat)
                        else
                          (Z.lor (Z.lor (Z.lor (Z.shiftl (Z.land s0 0x07) 18)
                                               (Z.shiftl (Z.land b1 0x3F) 12))
                                        (Z.shiftl (Z.land b2 0x3F) 6))
                                 (Z.land b3 0x3F), 4%nat)
                    | EmptyString => (RuneError, 1%nat)
                    end
              | EmptyString => (RuneError, 1%nat)
              end
        | _, _ => (RuneError, 1%nat)
        end
  end.

(** The continuation byte [tx | byte(x)&maskx]. *)
Definition cont (x : Z) : ascii := to_byte (Z.lor 0x80 (Z.land x 0x3F)).

(** [utf8.AppendRune] to an empty buffer: the UTF-8 encoding of [r]. *)
Definition AppendRune (r : Z) : string :=
  if between 0 0x7F r then String (to_byte r) EmptyString
  else if between 0x80 0x7FF r then
    String (to_byte (Z.lor 0xC0 (Z.shiftr r 6))) (String (cont r) EmptyString)
  else if between 0x800 0xFFFF r && negb (between 0xD800 0xDFFF r) then
    String (to_byte (Z.lor 0xE0 (Z.shiftr r 12)))
      (String (cont (Z.shiftr r 6)) (String (cont r) EmptyString))
  else if between 0x10000 MaxRune r then
    String (to_byte (Z.lor 0xF0 (Z.shiftr r 18)))
      (String (cont (Z.shiftr r 12))
         (String (cont (Z.shiftr r 6)) (String (cont r) EmptyString)))
  else String "239" (String "191" (String "189" EmptyString)).

(** [utf8.ValidRune]. *)
Definition ValidRune (r : Z) : bool :=
  between 0 0xD7FF r || between 0xE000 MaxRune r.

End utf8.

(* ================================================================== *)
(** ** Values and outcomes *)

(** The integer types the renderer tells apart. *)
Inductive int_kind : Type := KInt | KInt8 | KInt16 | KInt32 | KInt64.

(** A Go [interface{}] as the renderer sees it. [VList] is a
    [[]interface{}], [VMap] a [map[string]interface{}] (its entries in the
    order the run's [range] visits them), and [VOther] a value of any other
    dynamic type, the untyped [nil] included, named by its Go type. *)
Inductive value : Type :=
| VString (s : string)
| VBool (b : bool)
| VInt (k : int_kind) (n : Z)
| VList (l : list value)
| VMap (m : list (string * value))
| VOther (go_type : string).

(** The result of a call: a returned value, or a run-time panic. *)
Inductive outcome (A : Type) : Type :=
| Returns (a : A)
| Panics (msg : string).
Arguments Returns {A} a.
Arguments Panics {A} msg.

Definition obind {A B} (o : outcome A) (k : A -> outcome B) : outcome B :=
  match o with
  | Returns a => k a
  | Panics msg => Panics msg
  end.

Notation "'let!' x ':=' o 'in' k" := (obind o (fun x => k))
  (at level 10, x name, o at level 100, k at level 200).

(** A [for _, a := range l] loop over a slice whose body updates the
    accumulator [s] and may panic. *)
Definition for_range {A S} (body : S -> A -> outcome S)
  : list A -> S -> outcome S :=
  fix loop (l : list A) (s : S) : outcome S :=
    match l with
    | [] => Returns s
    | a :: l' => let! s' := body s a in loop l' s'
    end.

(** The message of the panic of a failed [item.(map[string]interface{})]. *)
Definition conversion_panic : string :=
  "interface conversion: interface {} is not map[string]interface {}".

(** Two values that stand for the same Go value: equal up to the order in
    which the entries of their maps are listed. *)
Inductive same_value : value -> value -> Prop :=
| same_string s : same_value (VString s) (VString s)
| same_bool b : same_value (VBool b) (VBool b)
| same_int k n : same_value (VInt k n) (VInt k n)
| same_other t : same_value (VOther t) (VOther t)
| same_list l1 l2 :
    Forall2 same_value l1 l2 -> same_value (VList l1) (VList l2)
| same_map m1 m2 m2' :
    Forall2 (fun e1 e2 => fst e1 = fst e2 /\ same_value (snd e1) (snd e2)) m1 m2 ->
    Permutation m2 m2' ->
    same_value (VMap m1) (VMap m2').

Definition is_map (v : value) : bool :=
  match v with
  | VMap _ => true
  | _ => false
  end.

(** A value that holds no [int8] and no [int16]: the two integer types the
    renderer of [main.go] does not know. *)
Fixpoint no_narrow_ints (v : value) : bool :=
  match v with
  | VInt KInt8 _ => false
  | VInt KInt16 _ => false
  | VList l => forallb no_narrow_ints l
  | VMap m => forallb (fun kv => no_narrow_ints (snd kv)) m
  | _ => true
  end.

(** Text pieces of the output format. *)
Definition DQ : string := String "034" EmptyString.
Definition LF : string := String "010" EmptyString.

(* ================================================================== *)
(** ** Caller-visible data *)

(** [terraform.InstanceState] and [terraform.ResourceState], with the fields
    the renderer reads. *)
Record InstanceState : Type := {
  ID : string;
  Attributes : gmap string string
}.

Record ResourceState : Type := {
  Type_ : string;
  Dependencies : list string;
  Primary : InstanceState
}.

(** The three objects a caller hands to the renderer by reference: the
    resource state, the defaults map and the excludes set (allocated maps;
    Go would panic on an insertion into a nil [ResourceExcludes]). *)
Record Caller : Type := {
  c_state : ResourceState;
  c_defaults : gmap string value;
  c_excludes : gset string
}.

(** The caller's objects after a call: ["id"] has joined the excludes. *)
Definition with_id_excluded (c : Caller) : Caller :=
  {| c_state := c_state c;
     c_defaults := c_defaults c;
     c_excludes := {[ "id" ]} ∪ c_excludes c |}.

(** A computation over the caller's objects that may panic. *)
Definition Run (A : Type) : Type := Caller -> outcome A * Caller.

Definition ret {A} (a : A) : Run A := fun c => (Returns a, c).

Definition bind {A B} (m : Run A) (k : A -> Run B) : Run B :=
  fun c =>
    match m c with
    | (Returns a, c') => k a c'
    | (Panics msg, c') => (Panics msg, c')
    end.

Definition lift {A} (o : outcome A) : Run A := fun c => (o, c).

Definition load_state : Run ResourceState := fun c => (Returns (c_state c), c).
Definition load_defaults : Run (gmap string value) :=
  fun c => (Returns (c_defaults c), c).
Definition load_excludes : Run (gset string) :=
  fun c => (Returns (c_excludes c), c).

(** [excludes[k] = struct{}{}]. *)
Definition store_exclude (k : string) : Run unit :=
  fun c => (Returns tt,
            {| c_state := c_state c;
               c_defaults := c_defaults c;
               c_excludes := {[ k ]} ∪ c_excludes c |}).

Notation "'let*' x ':=' m 'in' k" := (bind m (fun x => k))
  (at level 10, x name, m at level 100, k at level 200).
Notation "'do*' m 'in' k" := (bind m (fun _ => k))
  (at level 10, m at level 100, k at level 200).

(** A [for _, a := range l] loop whose body runs over the caller's objects. *)
Definition for_range_run {A S} (body : S -> A -> Run S)
  : list A -> S -> Run S :=
  fix loop (l : list A) (s : S) : Run S :=
    match l with
    | [] => ret s
    | a :: l' => let* s' := body s a in loop l' s'
    end.

(* ================================================================== *)
(** ** Reference environments

    The renderer runs against four things this repository does not define:
    the Unicode tables behind [strconv.IsPrint], the visiting order of Go's
    [range] over a map, [flatmap.Expand] and [printer.Format]. They are
    parameters of the embedding. The instances below are used to run it on
    concrete inputs. *)

(** Tables under which no rune above U+00FF is printable. *)
Definition no_wide_printables : Z -> bool := fun _ => false.

(** A visiting order is valid when it visits every entry of the map once. *)
Definition range_valid
  (range : forall V : Type, gmap string V -> list (string * V)) : Prop :=
  forall (V : Type) (m : gmap string V), range V m ≡ₚ map_to_list m.

(** Two visiting orders: the order in which the entries are stored, and the
    reverse of it. *)
Definition range_stored (V : Type) (m : gmap string V) : list (string * V) :=
  map_to_list m.
Definition range_backwards (V : Type) (m : gmap string V) : list (string * V) :=
  rev (map_to_list m).

(** [flatmap.Expand] on a state whose keys are scalar names, list counts
    [name.#] and map counts [name.%], both counts zero: the value stored
    under the key, with the texts [true] and [false] read as booleans; an
    empty list or map for a zero count; [nil] for an absent key. *)
Definition expand_flat (m : gmap string string) (key : string) : value :=
  match m !! key with
  | Some v =>
      if String.eqb v "true" then VBool true
      else if String.eqb v "false" then VBool false
      else VString v
  | None =>
      if bool_decide (m !! (key +:+ ".#") = Some "0") then VList []
      else if bool_decide (m !! (key +:+ ".%") = Some "0") then VMap []
      else VOther "nil"
  end.

(** Two formatters: one that accepts every text and leaves it as it is, one
    that rejects every text. *)
Definition format_verbatim (s : string) : string + string := inl s.
Definition format_rejecting (s : string) : string + string :=
  inr "illegal char".

(** *** Reference inputs *)

Definition resource_of (type id : string) (attrs : gmap string string)
  (deps : list string) : ResourceState :=
  {| Type_ := type; Dependencies := deps;
     Primary := {| ID := id; Attributes := attrs |} |}.

(** The same map of two tags, its entries visited in the two orders. *)
Definition tags_ab : value :=
  VMap [("a", VString "a"); ("b", VString "b")].
Definition tags_ba : value :=
  VMap [("b", VString "b"); ("a", VString "a")].

(** A resource without attributes whose defaults hold the tags. *)
Definition tagged_caller (tags : value) : Caller :=
  {| c_state := resource_of "widget" "w1" ∅ [];
     c_defaults := {[ "tags" := tags ]};
     c_excludes := ∅ |}.

(** A resource of type [widget] and identifier [a.b.c] with a name, an empty
    map of tags and an empty list of ports in its state. *)
Definition empties_caller : Caller :=
  {| c_state := resource_of "widget" "a.b.c"
                  {[ "name" := "n"; "tags.%" := "0"; "ports.#" := "0" ]} [];
     c_defaults := ∅;
     c_excludes := ∅ |}.

(** A resource whose state has a name, an owner and an id; the defaults
    have an owner and a region; the owner is excluded. *)
Definition overlay_caller : Caller :=
  {| c_state := resource_of "widget" "w1"
                  {[ "name" := "n"; "owner" := "ops"; "id" := "i-1" ]}
                  ["vpc"];
     c_defaults := {[ "owner" := VString "dev";
                      "region" := VString "us-east-1" ]};
     c_excludes := {[ "owner" ]} |}.

(** A resource whose identifier holds no delimiter and whose state has no
    id, with two dependencies. *)
Definition plain_resource : ResourceState :=
  resource_of "widget" "w1" {[ "name" := "n"; "zone" := "true" ]}
              ["vpc"; "subnet"].

(** A list of two rule blocks, and a list of ports that starts with a
    primitive and goes on with a map. *)
Definition two_rules : value :=
  VList [VMap [("port", VInt KInt 80)]; VMap [("port", VInt KInt 443)]].
Definition mixed_ports : value :=
  VList [VInt KInt 80; VMap [("port", VInt KInt 443)]; VOther "nil"].

(* ================================================================== *)
(** ** The renderer *)

Section Renderer.
Import GoString.

(** *** Package [strconv]: [Quote] *)

(** [strconv.IsPrint] above U+00FF. *)
Variable unicode_IsPrint : Z -> bool.

Definition lowerhex (n : Z) : ascii :=
  nth (Z.to_nat n) (list_ascii_of_string "0123456789abcdef") "0"%char.

Definition IsPrint (r : Z) : bool :=
  if r <=? 0xFF then
    if utf8.between 0x20 0x7E r then true
    else if utf8.between 0xA1 0xFF r then negb (r =? 0xAD)
    else false
  else unicode_IsPrint r.

(** The digits [lowerhex[r>>s&0xF]] for the shifts [s] of [shifts]. *)
Definition hex_digits (r : Z) (shifts : list Z) : string :=
  string_of_list_ascii
    (map (fun s => lowerhex (Z.land (Z.shiftr r s) 0xF)) shifts).

(** [\x] and the two digits of a byte. *)
Definition hex_escape (b : Z) : string :=
  "\x" +:+ String (lowerhex (Z.shiftr b 4))
             (String (lowerhex (Z.land b 0xF)) EmptyString).

(** [appendEscapedRune] for the double-quote byte, with [ASCIIonly] and
    [graphicOnly] off. U+007F is printed as [\x7f], as current Go releases
    do; older ones print a [\u] escape for it. *)
Definition appendEscapedRune (r : Z) : string :=
  if (r =? 0x22) || (r =? 0x5C) then
    String "\" (String (to_byte r) EmptyString)
  else if IsPrint r then utf8.AppendRune r
  else if r =? 7 then "\a"
  else if r =? 8 then "\b"
  else if r =? 12 then "\f"
  else if r =? 10 then "\n"
  else if r =? 13 then "\r"
  else if r =? 9 then "\t"
  else if r =? 11 then "\v"
  else if (r <? 0x20) || (r =? 0x7F) then hex_escape (r mod 256)
  else if negb (utf8.ValidRune r) then "\u" +:+ hex_digits 0xFFFD [12; 8; 4; 0]
  else if r <? 0x10000 then "\u" +:+ hex_digits r [12; 8; 4; 0]
  else "\U" +:+ hex_digits r [28; 24; 20; 16; 12; 8; 4; 0].

(** The loop of [appendQuotedWith]: one rune of [s] per turn; [fuel] bounds
    the number of turns and the length of [s] is enough. *)
Fixpoint appendQuoted (fuel : nat) (s : string) : string :=
  match fuel, s with
  | S fuel', String c0 _ =>
      let '(r, width) :=
        if byte_val c0 <? 0x80 then (byte_val c0, 1%nat)
        else utf8.DecodeRuneInString s in
      (if (width =? 1)%nat && (r =? utf8.RuneError)
       then hex_escape (byte_val c0)
       else appendEscapedRune r)
      +:+ appendQuoted fuel' (drop width s)
  | _, _ => EmptyString
  end.

Definition strconv_Quote (s : string) : string :=
  DQ +:+ appendQuoted (String.length s) s +:+ DQ.

(** *** Package [terraconf] *)

Definition tfStateKeyDelimiter : ascii := "."%char.
Definition tfStateKeyDelimiterReplacement : ascii := "_"%char.

Definition sanitizeResourceID (id : string) : string :=
  strings_Replace_all id tfStateKeyDelimiter tfStateKeyDelimiterReplacement.

(** The order in which a [range] statement visits a map. *)
Variable go_range : forall V : Type, gmap string V -> list (string * V).

Definition getUniqueAttributeNames (attrMap : gmap string string)
  : gmap string bool :=
  foldl (fun (names : gmap string bool) kv =>
           let name := hd EmptyString
                         (strings_SplitN_2 (fst kv) tfStateKeyDelimiter) in
           <[ name := false ]> names)
        ∅ (go_range string attrMap).

Definition isPrimitive (rawValue : value) : bool :=
  match rawValue with
  | VString _ => true
  | VBool _ => true
  | VInt _ _ => true
  | _ => false
  end.

Definition getPrimitiveValueString (rawValue : value) : string :=
  match rawValue with
  | VString v => strconv_Quote v
  | VBool v => DQ +:+ fmt_t v +:+ DQ
  | VInt _ v => fmt_d v
  | _ => "unknown"
  end.

Definition getDependsString (dependencies : list string) : string :=
  if (0 <? length dependencies)%nat then
    foldl (fun s v => s +:+ getPrimitiveValueString (VString v))
          ("depends_on = [" +:+ LF) dependencies
    +:+ "]" +:+ LF
  else EmptyString.

Definition getPrimitiveAttributeString (k : string) (rawValue : value)
  : string :=
  let v := getPrimitiveValueString rawValue in
  if String.eqb k "date" && String.eqb v (DQ +:+ DQ) then EmptyString
  else k +:+ " = " +:+ v +:+ LF.

Definition getPrimitiveAttributeListString (attrName : string)
  (list : list value) : string :=
  foldl (fun s v => s +:+ (getPrimitiveValueString v +:+ ","))
        (attrName +:+ " = [" +:+ LF) list
  +:+ "]" +:+ LF.

(** The body of [getMapAttributeString], over the function it calls for an
    entry that is not primitive. *)
Definition mapAttributeString (nested : string -> value -> outcome string)
  (attrName : string) (m : list (string * value)) : outcome string :=
  let! s :=
    for_range (fun s kv =>
                 if isPrimitive (snd kv)
                 then Returns (s +:+ getPrimitiveAttributeString (fst kv) (snd kv))
                 else let! t := nested (fst kv) (snd kv) in Returns (s +:+ t))
              m (attrName +:+ " {" +:+ LF) in
  Returns (s +:+ "}" +:+ LF).

Fixpoint getAttributeString (attrName : string) (attrRawVal : value)
  {struct attrRawVal} : outcome string :=
  match attrRawVal with
  | VList v =>
      if (0 <? length v)%nat
         && match v with v0 :: _ => isPrimitive v0 | [] => false end
      then Returns (getPrimitiveAttributeListString attrName v)
      else
        for_range (fun s item =>
                     match item with
                     | VMap m =>
                         let! t := mapAttributeString
                                     (fun k x => getAttributeString k x)
                                     attrName m in
                         Returns (s +:+ t)
                     | _ => Panics conversion_panic
                     end)
                  v EmptyString
  | VMap v =>
      if (0 <? length v)%nat
      then let! t := mapAttributeString (fun k x => getAttributeString k x)
                       attrName v in
           Returns t
      else Returns EmptyString
  | _ => Returns (getPrimitiveAttributeString attrName attrRawVal)
  end.

Definition getMapAttributeString (attrName : string)
  (m : list (string * value)) : outcome string :=
  mapAttributeString getAttributeString attrName m.

(** [flatmap.Expand]: the nested value a flat attribute map holds under a
    top-level name (with the order in which the run visits its maps). The
    state is one Terraform wrote, on which the expander returns. *)
Variable flatmap_Expand : gmap string string -> string -> value.

(** [printer.Format]: the formatted text, or an error. *)
Variable printer_Format : string -> string + string.

Definition formatConfig (s : string) : string :=
  match printer_Format s with
  | inl b => b
  | inr err => EmptyString
  end.

(** The first loop of [GetResourceStateConfigString]: names that only the
    defaults know are added, flagged [true]. *)
Definition addDefaultNames (attrNames : gmap string bool)
  (defaults : gmap string value) : gmap string bool :=
  foldl (fun (attrNames : gmap string bool) kv =>
           let attrName := fst kv in
           match attrNames !! attrName with
           | Some _ => attrNames
           | None => <[ attrName := true ]> attrNames
           end)
        attrNames (go_range value defaults).

(** The second loop, and the sort. *)
Definition sortedNames (attrNames : gmap string bool) : list string :=
  sort_Strings
    (foldl (fun sortedAttrNames kv => sortedAttrNames ++ [fst kv])
           [] (go_range bool attrNames)).

(** One turn of the third loop. *)
Definition renderAttribute (attrs : gmap string string)
  (attrNames : gmap string bool) (s : string) (attrName : string)
  : Run string :=
  let* excludes := load_excludes in
  if decide (attrName ∈ excludes) then ret s
  else
    let attrRawVal := flatmap_Expand attrs attrName in
    let useDefault := default false (attrNames !! attrName) in
    let* defaults := load_defaults in
    let '(defaultValue, defaultExists) :=
      match defaults !! attrName with
      | Some v => (v, true)
      | None => (VOther "nil", false)
      end in
    if useDefault && defaultExists then
      let* t := lift (getAttributeString attrName defaultValue) in
      ret (s +:+ t)
    else
      let* t := lift (getAttributeString attrName attrRawVal) in
      ret (s +:+ t).

(** [GetResourceStateConfigString] up to its last line: the text handed to
    [formatConfig]. *)
Definition resourceBlock : Run string :=
  let* state := load_state in
  let attrs := Attributes (Primary state) in
  let s := "resource " +:+ DQ +:+ Type_ state +:+ DQ +:+ " " +:+ DQ
           +:+ sanitizeResourceID (ID (Primary state)) +:+ DQ +:+ " {" +:+ LF in
  do* store_exclude "id" in
  let attrNames := getUniqueAttributeNames attrs in
  let* defaults := load_defaults in
  let attrNames := addDefaultNames attrNames defaults in
  let sortedAttrNames := sortedNames attrNames in
  let* s := for_range_run (renderAttribute attrs attrNames) sortedAttrNames s in
  let* state := load_state in
  let s := s +:+ getDependsString (Dependencies state) in
  let s := s +:+ "}" +:+ LF in
  ret s.

Definition GetResourceStateConfigString : Run string :=
  let* s := resourceBlock in
  ret (formatConfig s).

(** *** The copy of the value renderer in [main.go] *)

Definition IsPrimitive (rawValue : value) : bool :=
  match rawValue with
  | VString _ => true
  | VBool _ => true
  | VInt KInt _ => true
  | VInt KInt32 _ => true
  | VInt KInt64 _ => true
  | _ => false
  end.

Definition PrimitiveValueToString (rawValue : value) : string :=
  match rawValue with
  | VString v => strconv_Quote v
  | VBool v => DQ +:+ fmt_t v +:+ DQ
  | VInt KInt v => fmt_d v
  | VInt KInt32 v => fmt_d v
  | VInt KInt64 v => fmt_d v
  | _ => "unknown"
  end.

Definition PrimitiveAttributeToString (k : string) (rawValue : value)
  : string :=
  let v := PrimitiveValueToString rawValue in
  if String.eqb k "date" && String.eqb v (DQ +:+ DQ) then EmptyString
  else k +:+ " = " +:+ v +:+ LF.

Definition PrimitiveAttributeListToString (attrName : string)
  (list : list value) : string :=
  foldl (fun s v => s +:+ (PrimitiveValueToString v +:+ ","))
        (attrName +:+ " = [" +:+ LF) list
  +:+ "]" +:+ LF.

Definition mapAttributeToString (nested : string -> value -> outcome string)
  (attrName : string) (m : list (string * value)) : outcome string :=
  let! s :=
    for_range (fun s kv =>
                 if IsPrimitive (snd kv)
                 then Returns (s +:+ PrimitiveAttributeToString (fst kv) (snd kv))
                 else let! t := nested (fst kv) (snd kv) in Returns (s +:+ t))
              m (attrName +:+ " {" +:+ LF) in
  Returns (s +:+ "}" +:+ LF).

Fixpoint AttributeToString (attrName : string) (attrRawVal : value)
  {struct attrRawVal} : outcome string :=
  match attrRawVal with
  | VList v =>
      if (0 <? length v)%nat
         && match v with v0 :: _ => IsPrimitive v0 | [] => false end
      then Returns (PrimitiveAttributeListToString attrName v)
      else
        for_range (fun s item =>
                     match item with
                     | VMap m =>
                         let! t := mapAttributeToString
                                     (fun k x => AttributeToString k x)
                                     attrName m in
                         Returns (s +:+ t)
                     | _ => Panics conversion_panic
                     end)
                  v EmptyString
  | VMap v =>
      if (0 <? length v)%nat
      then let! t := mapAttributeToString (fun k x => AttributeToString k x)
                       attrName v in
           Returns t
      else Returns EmptyString
  | _ => Returns (PrimitiveAttributeToString attrName attrRawVal)
  end.

Definition MapAttributeToString (attrName : string)
  (m : list (string * value)) : outcome string :=
  mapAttributeToString AttributeToString attrName m.

(** *** Views of the renderer used to state its properties *)

(** The top-level name of a flat key: [strings.SplitN(k, ".", 2)[0]]. *)
Definition topLevelName (k : string) : string :=
  hd EmptyString (strings_SplitN_2 k tfStateKeyDelimiter).

(** The top-level names present in a flat attribute map. *)
Definition stateNames (attrs : gmap string string) : gset string :=
  set_map topLevelName (dom attrs).

(** The header line of a resource block, without its line end. *)
Definition header (state : ResourceState) : string :=
  "resource " +:+ DQ +:+ Type_ state +:+ DQ +:+ " " +:+ DQ
  +:+ sanitizeResourceID (ID (Primary state)) +:+ DQ +:+ " {".

(** The value the third loop renders for a name, if any: nothing for an
    excluded name, the default for a name flagged [true] that has one, the
    expanded state value otherwise. *)
Definition chosenValue (attrs : gmap string string)
  (attrNames : gmap string bool) (defaults : gmap string value)
  (excludes : gset string) (attrName : string) : option value :=
  if decide (attrName ∈ excludes) then None
  else match defaults !! attrName with
       | Some defaultValue =>
           if default false (attrNames !! attrName) then Some defaultValue
           else Some (flatmap_Expand attrs attrName)
       | None => Some (flatmap_Expand attrs attrName)
       end.

(** The name table of a call, as the first two loops leave it. *)
Definition attributeNames (c : Caller) : gmap string bool :=
  addDefaultNames (getUniqueAttributeNames (Attributes (Primary (c_state c))))
                  (c_defaults c).

(** The attributes a call renders, in the order it renders them, each with
    the value it is rendered from. *)
Definition renderedAttributes (c : Caller) : list (string * value) :=
  omap (fun attrName =>
          option_map (pair attrName)
            (chosenValue (Attributes (Primary (c_state c))) (attributeNames c)
                         (c_defaults c) ({[ "id" ]} ∪ c_excludes c) attrName))
       (sortedNames (attributeNames c)).

(** The third loop, restricted to the turns that render something. *)
Definition renderAll (l : list (string * value)) (s : string)
  : outcome string :=
  for_range (fun s nv =>
               let! t := getAttributeString (fst nv) (snd nv) in
               Returns (s +:+ t))
            l s.

(** The loop of [getAttributeString] over a list that does not start with a
    primitive, for a map renderer [f]. *)
Definition blocks_loop (f : list (string * value) -> outcome string)
  : list value -> string -> outcome string :=
  for_range (fun s item =>
               match item with
               | VMap m => let! t := f m in Returns (s +:+ t)
               | _ => Panics conversion_panic
               end).

(** A byte that is neither a backslash, a double quote nor a line feed. *)
Definition plain (c : ascii) : bool :=
  negb (Ascii.eqb c "092"%char || Ascii.eqb c "034"%char || Ascii.eqb c "010"%char).

Fixpoint all_plain (s : string) : bool :=
  match s with
  | EmptyString => true
  | String c s' => plain c && all_plain s'
  end.

(** A text in which every backslash starts a two-byte escape and no
    double quote or line feed stands outside one. *)
Fixpoint well_escaped (s : string) : bool :=
  match s with
  | EmptyString => true
  | String c s' =>
      if Ascii.eqb c "092"%char then
        match s' with
        | EmptyString => false
        | String _ s'' => well_escaped s''
        end
      else if Ascii.eqb c "034"%char || Ascii.eqb c "010"%char then false
      else well_escaped s'
  end.

Definition is_digit (c : ascii) : bool :=
  utf8.between 48 57 (byte_val c).

Fixpoint all_digits (s : string) : bool :=
  match s with
  | EmptyString => true
  | String c s' => is_digit c && all_digits s'
  end.

(** Bare decimal text: an optional minus sign and at least one digit. *)
Definition is_decimal (s : string) : bool :=
  match s with
  | EmptyString => false
  | String c s' =>
      if Ascii.eqb c "-"%char
      then negb (String.eqb s' EmptyString) && all_digits s'
      else all_digits s
  end.

(** A value on which no type assertion of the renderer fails: a list whose
    first element is not primitive holds maps only. *)
Fixpoint renderable (v : value) : bool :=
  match v with
  | VList l =>
      match l with
      | v0 :: _ =>
          isPrimitive v0
          || forallb (fun item =>
                        match item with
                        | VMap m => forallb (fun kv => renderable (snd kv)) m
                        | _ => false
                        end) l
      | [] => true
      end
  | VMap m => forallb (fun kv => renderable (snd kv)) m
  | _ => true
  end.

(** *** The resource renderers of [main.go] *)

Definition uniqueAttributeNames (attrMap : gmap string string)
  : gmap string bool :=
  foldl (fun (names : gmap string bool) kv =>
           let name := hd EmptyString
                         (strings_SplitN_2 (fst kv) tfStateKeyDelimiter) in
           <[ name := false ]> names)
        ∅ (go_range string attrMap).

(** The dependency lines both renderers of [main.go] append to [s]. *)
Definition appendDependencies (s : string) (dependencies : list string)
  : string :=
  if (0 <? length dependencies)%nat then
    foldl (fun s v => s +:+ PrimitiveValueToString (VString v))
          (s +:+ "depends_on = [" +:+ LF) dependencies
    +:+ "]" +:+ LF
  else s.

(** The text [ResourceAsString] hands to the formatter. *)
Definition resourceAsText (state : ResourceState) : outcome string :=
  let attrs := Attributes (Primary state) in
  let s := "resource " +:+ DQ +:+ Type_ state +:+ DQ +:+ " " +:+ DQ
           +:+ ID (Primary state) +:+ DQ +:+ " {" +:+ LF in
  let attrNames := uniqueAttributeNames attrs in
  let sortedAttrNames := sortedNames attrNames in
  let! s :=
    for_range (fun s attrName =>
                 let attrRawVal := flatmap_Expand attrs attrName in
                 let! t := AttributeToString attrName attrRawVal in
                 Returns (s +:+ t))
              sortedAttrNames s in
  let s := appendDependencies s (Dependencies state) in
  let s := s +:+ "}" +:+ LF in
  Returns s.

Definition ResourceAsString (state : ResourceState) : outcome string :=
  let! s := resourceAsText state in
  Returns (match printer_Format s with
           | inl b => b
           | inr err => EmptyString
           end).

(** One turn of the rendering loop of [ResourceStateToConfigString]. *)
Definition attributeToConfig (attrs : gmap string string)
  (attrNames : gmap string bool) (s : string) (attrName : string)
  : Run string :=
  let* excludes := load_excludes in
  if decide (attrName ∈ excludes) then ret s
  else
    let attrRawVal := flatmap_Expand attrs attrName in
    let useDefault := default false (attrNames !! attrName) in
    let* defaults := load_defaults in
    let '(defaultValue, defaultExists) :=
      match defaults !! attrName with
      | Some v => (v, true)
      | None => (VOther "nil", false)
      end in
    if useDefault && defaultExists then
      let* t := lift (AttributeToString attrName defaultValue) in
      ret (s +:+ t)
    else
      let* t := lift (AttributeToString attrName attrRawVal) in
      ret (s +:+ t).

Definition ResourceStateToConfigString : Run string :=
  let* state := load_state in
  let attrs := Attributes (Primary state) in
  let s := "resource " +:+ DQ +:+ Type_ state +:+ DQ +:+ " " +:+ DQ
           +:+ sanitizeResourceID (ID (Primary state)) +:+ DQ +:+ " {" +:+ LF in
  do* store_exclude "id" in
  let attrNames := uniqueAttributeNames attrs in
  let* defaults := load_defaults in
  let attrNames := addDefaultNames attrNames defaults in
  let sortedAttrNames := sortedNames attrNames in
  let* s := for_range_run (attributeToConfig attrs attrNames) sortedAttrNames s in
  let* state := load_state in
  let s := appendDependencies s (Dependencies state) in
  let s := s +:+ "}" +:+ LF in
  ret (match printer_Format s with
       | inl b => b
       | inr err => EmptyString
       end).

(** *** Further views *)

(** The value the overlay gives a name: none for an excluded name and for
    the name [id]; the expanded state value for a name of the state; the
    default, if there is one, for any other name. *)
Definition overlayValue (c : Caller) (attrName : string) : option value :=
  if decide (attrName ∈ c_excludes c) then None
  else if decide (attrName = "id") then None
  else if decide (attrName ∈ stateNames (Attributes (Primary (c_state c))))
  then Some (flatmap_Expand (Attributes (Primary (c_state c))) attrName)
  else c_defaults c !! attrName.

(** The rendering of one list element [v] by the list helper. *)
Definition listElement (v : value) : string :=
  getPrimitiveValueString v +:+ ",".

(* ================================================================== *)
(** ** Facts about strings and the library functions *)

Lemma app_cons (c : ascii) (s t : string) :
  String c s +:+ t = String c (s +:+ t).
Proof. reflexivity. Qed.

Lemma app_nil_l (s : string) : EmptyString +:+ s = s.
Proof. reflexivity. Qed.

Lemma app_nil_r (s : string) : s +:+ EmptyString = s.
Proof.
  induction s as [|c s IH]; [reflexivity|].
  rewrite app_cons. now rewrite IH.
Qed.

Lemma app_assoc (s t u : string) : (s +:+ t) +:+ u = s +:+ (t +:+ u).
Proof.
  induction s as [|c s IH]; [reflexivity|].
  rewrite !app_cons. now rewrite IH.
Qed.

Lemma mem_app c s t : mem c (s +:+ t) = mem c s || mem c t.
Proof.
  induction s as [|d s IH]; [reflexivity|].
  rewrite app_cons. cbn. destruct (Ascii.eqb c d); [reflexivity|apply IH].
Qed.

Lemma contains_refl t : contains t t.
Proof. exists EmptyString, EmptyString. now rewrite app_nil_l, app_nil_r. Qed.

Lemma contains_app_l t s u : contains t s -> contains t (s +:+ u).
Proof.
  intros (pre & post & ->). exists pre, (post +:+ u).
  now rewrite !app_assoc.
Qed.

Lemma contains_app_r t s u : contains t s -> contains t (u +:+ s).
Proof.
  intros (pre & post & ->). exists (u +:+ pre), post.
  now rewrite !app_assoc.
Qed.

Lemma concat_app (l1 l2 : list string) :
  concat (l1 ++ l2) = concat l1 +:+ concat l2.
Proof.
  unfold concat. induction l1 as [|t l1 IH]; [reflexivity|].
  cbn. rewrite IH. now rewrite app_assoc.
Qed.

Lemma contains_concat t (l : list string) : In t l -> contains t (concat l).
Proof.
  induction l as [|u l IH]; [intros []|].
  intros [->|Hin]; change (concat (?a :: l)) with (a +:+ concat l).
  - apply contains_app_l, contains_refl.
  - apply contains_app_r, IH, Hin.
Qed.

(** Replacing every delimiter leaves none, keeps the length, and changes
    the delimiter bytes only. *)
Lemma strings_Replace_all_mem s old new :
  old <> new -> mem old (strings_Replace_all s old new) = false.
Proof.
  intros Hne. induction s as [|c s IH]; [reflexivity|].
  cbn. destruct (Ascii.eqb_spec c old) as [->|Hc].
  - destruct (Ascii.eqb_spec old new); [contradiction|exact IH].
  - destruct (Ascii.eqb_spec old c); [congruence|exact IH].
Qed.

Lemma strings_Replace_all_length s old new :
  String.length (strings_Replace_all s old new) = String.length s.
Proof. induction s as [|c s IH]; [reflexivity|]. cbn. now rewrite IH. Qed.

Lemma strings_Replace_all_get s old new (i : nat) :
  String.get i (strings_Replace_all s old new)
  = option_map (fun c => if Ascii.eqb c old then new else c) (String.get i s).
Proof.
  revert i. induction s as [|c s IH]; intros i; [reflexivity|].
  destruct i as [|i]; [reflexivity|]. cbn. apply IH.
Qed.

(** [strings.SplitN] with a limit of two returns one or two pieces, and the
    first holds no delimiter. *)
Lemma strings_SplitN_2_nonempty s sep : strings_SplitN_2 s sep <> [].
Proof.
  destruct s as [|c s]; [discriminate|]. cbn.
  destruct (Ascii.eqb c sep); [discriminate|].
  destruct (strings_SplitN_2 s sep); discriminate.
Qed.

Lemma strings_SplitN_2_no_sep s sep :
  strings_SplitN_2 s sep = [s] /\ mem sep s = false
  \/ exists a b, strings_SplitN_2 s sep = [a; b] /\ mem sep a = false
                 /\ s = a +:+ String sep b.
Proof.
  induction s as [|c s IH]; [left; split; reflexivity|].
  cbn. destruct (Ascii.eqb_spec c sep) as [->|Hc].
  - right. exists EmptyString, s. repeat split.
  - destruct IH as [[-> Hm]|(a & b & -> & Hm & ->)].
    + left. split; [reflexivity|].
      destruct (Ascii.eqb_spec sep c); [congruence|exact Hm].
    + right. exists (String c a), b. repeat split.
      cbn. destruct (Ascii.eqb_spec sep c); [congruence|exact Hm].
Qed.

(** *** Sorting *)

Lemma sort_Strings_sorted l : StronglySorted String.le (sort_Strings l).
Proof. apply StronglySorted_merge_sort; apply _. Qed.

Lemma sort_Strings_perm l : sort_Strings l ≡ₚ l.
Proof. apply merge_sort_Permutation. Qed.

(** A list has one sorted arrangement: the result of [sort.Strings] does not
    depend on the algorithm, nor on the order of its input. *)
Lemma sort_Strings_unique l l' :
  l ≡ₚ l' -> StronglySorted String.le l' -> sort_Strings l = l'.
Proof.
  intros Hp Hs. apply (StronglySorted_unique String.le).
  - apply sort_Strings_sorted.
  - exact Hs.
  - now rewrite sort_Strings_perm.
Qed.

Lemma sort_Strings_order l1 l2 :
  l1 ≡ₚ l2 -> sort_Strings l1 = sort_Strings l2.
Proof.
  intros Hp. apply sort_Strings_unique.
  - now rewrite Hp, sort_Strings_perm.
  - apply sort_Strings_sorted.
Qed.

Lemma String_le_ne_ltb (a b : string) :
  String.le a b -> a <> b -> String.ltb a b = true.
Proof.
  unfold String.le, String.leb, String.ltb. intros Hle Hne.
  destruct (String.compare a b) eqn:E; try reflexivity.
  - apply String.compare_eq_iff in E. contradiction.
  - exact (False_ind _ Hle).
Qed.

Lemma sorted_NoDup_strict (l : list string) :
  StronglySorted String.le l -> NoDup l ->
  StronglySorted (fun a b => String.ltb a b = true) l.
Proof.
  induction 1 as [|a l Hs IH Ha]; intros Hnd; constructor.
  - apply IH. now apply NoDup_cons_1_2 in Hnd.
  - apply NoDup_cons in Hnd as [Hnin _].
    rewrite Forall_forall in Ha |- *. intros b Hb.
    apply String_le_ne_ltb; [now apply Ha|].
    intros ->. contradiction.
Qed.

(* ================================================================== *)
(** ** The name table does not depend on the visiting order *)

(** A [range] statement visits every entry of the map once. *)
Hypothesis go_range_perm : range_valid go_range.

Lemma go_range_visits (V : Type) (m : gmap string V) :
  go_range V m ≡ₚ map_to_list m.
Proof. apply go_range_perm. Qed.

Lemma go_range_elem_of (V : Type) (m : gmap string V) k v :
  (k, v) ∈ go_range V m <-> m !! k = Some v.
Proof. rewrite go_range_visits. apply elem_of_map_to_list. Qed.

Lemma go_range_key (V : Type) (m : gmap string V) k :
  k ∈ map fst (go_range V m) <-> k ∈ dom m.
Proof.
  rewrite elem_of_dom. change (map fst (go_range V m)) with (fst <$> go_range V m).
  rewrite list_elem_of_fmap. split.
  - intros ([k' v] & -> & Hin). apply go_range_elem_of in Hin. now exists v.
  - intros [v Hv]. exists (k, v). split; [reflexivity|].
    now apply go_range_elem_of.
Qed.

Lemma go_range_keys_perm (V : Type) (m : gmap string V) :
  map fst (go_range V m) ≡ₚ elements (dom m).
Proof.
  apply NoDup_Permutation.
  - change (map fst (go_range V m)) with ((go_range V m).*1).
    rewrite go_range_visits. apply NoDup_fst_map_to_list.
  - apply NoDup_elements.
  - intros k. rewrite go_range_key. now rewrite elem_of_elements.
Qed.

Lemma insert_false_lookup {A} (f : A -> string) (l : list A)
  (init : gmap string bool) (n : string) :
  foldl (fun (names : gmap string bool) a => <[ f a := false ]> names) init l !! n
  = if decide (n ∈ map f l) then Some false else init !! n.
Proof.
  revert init. induction l as [|a l IH]; intros init; cbn.
  - destruct (decide _) as [Hin|_]; [|reflexivity]. inversion Hin.
  - rewrite IH. destruct (decide (n ∈ map f l)) as [Hin|Hnin].
    + rewrite decide_True; [reflexivity|]. now right.
    + destruct (decide (n = f a)) as [->|Hne].
      * rewrite lookup_insert_eq. rewrite decide_True; [reflexivity|]. left.
      * rewrite lookup_insert_ne by congruence.
        rewrite decide_False; [reflexivity|].
        intros Hin. apply elem_of_cons in Hin as [?|?]; contradiction.
Qed.

Lemma getUniqueAttributeNames_lookup (attrMap : gmap string string) n :
  getUniqueAttributeNames attrMap !! n
  = if decide (n ∈ stateNames attrMap) then Some false else None.
Proof.
  change (getUniqueAttributeNames attrMap)
    with (foldl (fun (names : gmap string bool) (kv : string * string) =>
                   <[ topLevelName (fst kv) := false ]> names)
                ∅ (go_range string attrMap)).
  rewrite (insert_false_lookup (fun kv => topLevelName (fst kv))).
  rewrite lookup_empty.
  assert (n ∈ map (fun kv : string * string => topLevelName kv.1)
                  (go_range string attrMap)
          <-> n ∈ stateNames attrMap) as Hiff.
  { unfold stateNames. rewrite elem_of_map.
    change (map ?g ?l) with (g <$> l). rewrite list_elem_of_fmap. split.
    - intros ([k v] & -> & Hin). exists k. split; [reflexivity|].
      apply go_range_key. now apply (list_elem_of_fmap_2 fst) in Hin.
    - intros (k & -> & Hk). apply go_range_key in Hk.
      change (map fst ?l) with (fst <$> l) in Hk.
      apply list_elem_of_fmap in Hk as ([k' v] & -> & Hin).
      now exists (k', v). }
  destruct (decide (n ∈ stateNames attrMap)) as [H|H].
  - rewrite decide_True; [reflexivity|now apply Hiff].
  - rewrite decide_False; [reflexivity|]. intros H'. now apply H, Hiff.
Qed.

Lemma add_true_lookup {A} (l : list (string * A)) (init : gmap string bool) n :
  foldl (fun (attrNames : gmap string bool) (kv : string * A) =>
           let attrName := fst kv in
           match attrNames !! attrName with
           | Some _ => attrNames
           | None => <[ attrName := true ]> attrNames
           end) init l !! n
  = match init !! n with
    | Some b => Some b
    | None => if decide (n ∈ map fst l) then Some true else None
    end.
Proof.
  revert init. induction l as [|[k v] l IH]; intros init; cbn.
  - destruct (init !! n); [reflexivity|].
    destruct (decide _) as [Hin|_]; [inversion Hin|reflexivity].
  - rewrite IH. destruct (init !! k) eqn:Hk.
    + destruct (init !! n) eqn:Hn; [reflexivity|].
      assert (n <> k) by congruence.
      destruct (decide (n ∈ map fst l)) as [Hin|Hnin].
      * rewrite decide_True; [reflexivity|now right].
      * rewrite decide_False; [reflexivity|].
        intros Hin. apply elem_of_cons in Hin as [?|?]; contradiction.
    + destruct (decide (n = k)) as [->|Hne].
      * rewrite lookup_insert_eq, Hk.
        rewrite decide_True; [reflexivity|left].
      * rewrite lookup_insert_ne by congruence.
        destruct (init !! n); [reflexivity|].
        destruct (decide (n ∈ map fst l)) as [Hin|Hnin].
        -- rewrite decide_True; [reflexivity|now right].
        -- rewrite decide_False; [reflexivity|].
           intros Hin. apply elem_of_cons in Hin as [?|?]; contradiction.
Qed.

(** The flag of a name: [false] when the state has it, [true] when only the
    defaults have it; no other name is in the table. *)
Lemma attributeNames_lookup (c : Caller) n :
  attributeNames c !! n
  = if decide (n ∈ stateNames (Attributes (Primary (c_state c))))
    then Some false
    else if decide (n ∈ dom (c_defaults c)) then Some true else None.
Proof.
  unfold attributeNames, addDefaultNames.
  rewrite add_true_lookup, getUniqueAttributeNames_lookup.
  destruct (decide (n ∈ stateNames _)); [reflexivity|].
  destruct (decide (n ∈ dom (c_defaults c))) as [H|H].
  - rewrite decide_True; [reflexivity|now apply go_range_key].
  - rewrite decide_False; [reflexivity|]. intros H'. now apply H, go_range_key.
Qed.

Lemma attributeNames_dom (c : Caller) :
  dom (attributeNames c)
  = stateNames (Attributes (Primary (c_state c))) ∪ dom (c_defaults c).
Proof.
  apply set_eq. intros n. rewrite elem_of_dom, attributeNames_lookup.
  rewrite elem_of_union.
  destruct (decide (n ∈ stateNames _)) as [H1|H1];
    [|destruct (decide (n ∈ dom (c_defaults c))) as [H2|H2]].
  - split; [now left|now eexists].
  - split; [now right|now eexists].
  - split; [intros [? [=]]|intros [?|?]; contradiction].
Qed.

Lemma collect_keys {A} (l : list (string * A)) (acc : list string) :
  foldl (fun sortedAttrNames (kv : string * A) => sortedAttrNames ++ [fst kv])
        acc l = acc ++ map fst l.
Proof.
  revert acc. induction l as [|kv l IH]; intros acc; cbn.
  - now rewrite List.app_nil_r.
  - rewrite IH. now rewrite <- List.app_assoc.
Qed.

(** The sorted names are the keys of the table in increasing order, whatever
    the order in which the table is visited. *)
Lemma sortedNames_canonical (attrNames : gmap string bool) :
  sortedNames attrNames = sort_Strings (elements (dom attrNames)).
Proof.
  unfold sortedNames. rewrite collect_keys. cbn.
  apply sort_Strings_order, go_range_keys_perm.
Qed.

Lemma sortedNames_elem_of (attrNames : gmap string bool) n :
  n ∈ sortedNames attrNames <-> n ∈ dom attrNames.
Proof.
  rewrite sortedNames_canonical, sort_Strings_perm. apply elem_of_elements.
Qed.

Lemma sortedNames_strict (attrNames : gmap string bool) :
  StronglySorted (fun a b => String.ltb a b = true) (sortedNames attrNames).
Proof.
  rewrite sortedNames_canonical. apply sorted_NoDup_strict.
  - apply sort_Strings_sorted.
  - rewrite sort_Strings_perm. apply NoDup_elements.
Qed.

(* ================================================================== *)
(** ** The shape of a run *)

Lemma renderAttribute_run attrs attrNames s attrName (c : Caller) :
  renderAttribute attrs attrNames s attrName c
  = (match chosenValue attrs attrNames (c_defaults c) (c_excludes c) attrName with
     | None => Returns s
     | Some v => let! t := getAttributeString attrName v in Returns (s +:+ t)
     end, c).
Proof.
  unfold renderAttribute, chosenValue, bind, load_excludes, load_defaults,
    lift, ret.
  destruct (decide (attrName ∈ c_excludes c)); [reflexivity|].
  destruct (c_defaults c !! attrName) as [dv|];
    destruct (default false (attrNames !! attrName)); cbn;
    match goal with
    | |- context [getAttributeString ?n ?v] =>
        destruct (getAttributeString n v); reflexivity
    end.
Qed.

Lemma render_loop_run attrs attrNames names s (c : Caller) :
  for_range_run (renderAttribute attrs attrNames) names s c
  = (renderAll
       (omap (fun attrName =>
                option_map (pair attrName)
                  (chosenValue attrs attrNames (c_defaults c) (c_excludes c)
                               attrName))
             names) s, c).
Proof.
  revert s. induction names as [|n names IH]; intros s; [reflexivity|].
  cbn [for_range_run]. unfold bind at 1. rewrite renderAttribute_run.
  cbn [omap list_omap].
  destruct (chosenValue attrs attrNames (c_defaults c) (c_excludes c) n)
    as [v|]; cbn [option_map].
  - unfold renderAll at 1. cbn [for_range fst snd].
    destruct (getAttributeString n v) as [t|msg]; cbn [obind]; [|reflexivity].
    apply IH.
  - apply IH.
Qed.

Lemma header_line (state : ResourceState) :
  "resource " +:+ DQ +:+ Type_ state +:+ DQ +:+ " " +:+ DQ
  +:+ sanitizeResourceID (ID (Primary state)) +:+ DQ +:+ " {" +:+ LF
  = header state +:+ LF.
Proof. unfold header. now rewrite !app_assoc. Qed.

(** A run renders the attributes of [renderedAttributes] in order after the
    header, then the dependencies and the closing brace; it leaves the
    caller's objects as they were but for ["id"] in the excludes. *)
Lemma resourceBlock_run (c : Caller) :
  resourceBlock c
  = (let! s := renderAll (renderedAttributes c) (header (c_state c) +:+ LF) in
     Returns (s +:+ getDependsString (Dependencies (c_state c)) +:+ "}" +:+ LF),
     with_id_excluded c).
Proof.
  unfold resourceBlock, bind, load_state, load_defaults, store_exclude, ret.
  fold (with_id_excluded c).
  rewrite render_loop_run, header_line.
  change (c_defaults (with_id_excluded c)) with (c_defaults c).
  change (c_excludes (with_id_excluded c)) with ({[ "id" ]} ∪ c_excludes c).
  fold (attributeNames c). fold (renderedAttributes c).
  destruct (renderAll (renderedAttributes c) _); [|reflexivity].
  cbn [obind]. change (c_state (with_id_excluded c)) with (c_state c).
  now rewrite app_assoc.
Qed.

Lemma GetResourceStateConfigString_run (c : Caller) :
  GetResourceStateConfigString c
  = (let! s := fst (resourceBlock c) in Returns (formatConfig s),
     with_id_excluded c).
Proof.
  unfold GetResourceStateConfigString, bind. rewrite resourceBlock_run.
  cbn [fst]. destruct (renderAll _ _); reflexivity.
Qed.

Lemma renderAll_returns l s out :
  renderAll l s = Returns out <->
  exists texts,
    Forall2 (fun nv t => getAttributeString (fst nv) (snd nv) = Returns t)
            l texts
    /\ out = s +:+ concat texts.
Proof.
  revert s. induction l as [|[n v] l IH]; intros s.
  - cbn. split.
    + intros [= <-]. exists []. split; [constructor|].
      cbn. now rewrite app_nil_r.
    + intros (texts & HF & ->). inversion HF. cbn. now rewrite app_nil_r.
  - unfold renderAll. cbn [for_range fst snd]. fold (renderAll l).
    destruct (getAttributeString n v) as [t|msg] eqn:E; cbn [obind].
    + rewrite IH. split.
      * intros (texts & HF & ->). exists (t :: texts). split.
        -- constructor; [exact E|exact HF].
        -- change (concat (t :: texts)) with (t +:+ concat texts).
           now rewrite app_assoc.
      * intros (texts & HF & ->). inversion HF as [|? t' ? texts' Hv HF']; subst.
        cbn [fst snd] in Hv. rewrite E in Hv. injection Hv as <-.
        exists texts'. split; [exact HF'|].
        change (concat (t :: texts')) with (t +:+ concat texts').
        now rewrite app_assoc.
    + split; [discriminate|].
      intros (texts & HF & _). inversion HF as [|? t' ? texts' Hv HF']; subst.
      cbn [fst snd] in Hv. rewrite E in Hv. discriminate.
Qed.

(** The text of a run that returns. *)
Lemma resourceBlock_text (c : Caller) out c' :
  resourceBlock c = (Returns out, c') ->
  exists texts,
    Forall2 (fun nv t => getAttributeString (fst nv) (snd nv) = Returns t)
            (renderedAttributes c) texts
    /\ out = header (c_state c) +:+ LF +:+ concat texts
             +:+ getDependsString (Dependencies (c_state c)) +:+ "}" +:+ LF.
Proof.
  rewrite resourceBlock_run. intros [= H _].
  destruct (renderAll _ _) as [s|] eqn:E; [|discriminate].
  cbn in H. injection H as <-.
  apply renderAll_returns in E as (texts & HF & ->).
  exists texts. split; [exact HF|]. now rewrite !app_assoc.
Qed.

Lemma renderedAttributes_names (c : Caller) :
  map fst (renderedAttributes c)
  = List.filter (fun n => bool_decide (n ∉ ({[ "id" ]} ∪ c_excludes c : gset string)))
                (sortedNames (attributeNames c)).
Proof.
  unfold renderedAttributes.
  induction (sortedNames (attributeNames c)) as [|n l IH]; [reflexivity|].
  cbn [omap list_omap List.filter]. unfold chosenValue at 1.
  destruct (decide (n ∈ {[ "id" ]} ∪ c_excludes c)) as [Hin|Hnin].
  - rewrite bool_decide_eq_false_2 by (intros H; now apply H).
    cbn [option_map]. exact IH.
  - rewrite bool_decide_eq_true_2 by exact Hnin.
    destruct (c_defaults c !! n);
      [destruct (default false (attributeNames c !! n))|];
      cbn [option_map map fst]; now rewrite IH.
Qed.

Lemma StronglySorted_filter_list {A} (R : A -> A -> Prop) (f : A -> bool) l :
  StronglySorted R l -> StronglySorted R (List.filter f l).
Proof.
  induction 1 as [|a l Hs IH Ha]; [constructor|].
  cbn. destruct (f a); [|exact IH]. constructor; [exact IH|].
  rewrite Forall_forall in Ha |- *. intros b Hb.
  apply list_elem_of_In, filter_In in Hb as [Hb _].
  now apply Ha, list_elem_of_In.
Qed.

(* ================================================================== *)
(** ** The value renderer *)

Lemma getAttributeString_list attrName v :
  getAttributeString attrName (VList v)
  = if (0 <? length v)%nat
       && match v with v0 :: _ => isPrimitive v0 | [] => false end
    then Returns (getPrimitiveAttributeListString attrName v)
    else blocks_loop (getMapAttributeString attrName) v EmptyString.
Proof. reflexivity. Qed.

Lemma getAttributeString_map attrName m :
  getAttributeString attrName (VMap m)
  = if (0 <? length m)%nat
    then let! t := getMapAttributeString attrName m in Returns t
    else Returns EmptyString.
Proof. reflexivity. Qed.

Lemma AttributeToString_list attrName v :
  AttributeToString attrName (VList v)
  = if (0 <? length v)%nat
       && match v with v0 :: _ => IsPrimitive v0 | [] => false end
    then Returns (PrimitiveAttributeListToString attrName v)
    else blocks_loop (MapAttributeToString attrName) v EmptyString.
Proof. reflexivity. Qed.

Lemma blocks_loop_returns f l s out :
  blocks_loop f l s = Returns out -> Forall (fun item => is_map item = true) l.
Proof.
  revert s. induction l as [|item l IH]; intros s H; [constructor|].
  unfold blocks_loop in H. cbn [for_range] in H. fold (blocks_loop f) in H.
  destruct item; try discriminate H.
  destruct (f m) as [t|msg]; [|discriminate H].
  constructor; [reflexivity|]. exact (IH _ H).
Qed.

Lemma blocks_loop_panics f pre x post s :
  Forall (fun item => exists m t, item = VMap m /\ f m = Returns t) pre ->
  is_map x = false ->
  blocks_loop f (pre ++ x :: post) s = Panics conversion_panic.
Proof.
  intros Hpre Hx. revert s.
  induction Hpre as [|item pre (m & t & -> & Hm) _ IH]; intros s.
  - unfold blocks_loop. cbn [app for_range].
    destruct x; try reflexivity. discriminate Hx.
  - unfold blocks_loop. cbn [app for_range]. fold (blocks_loop f).
    rewrite Hm. cbn [obind]. apply IH.
Qed.

Lemma not_returns_panics {A} (o : outcome A) :
  (forall a, o <> Returns a) -> exists msg, o = Panics msg.
Proof.
  destruct o as [a|msg]; [intros H; now destruct (H a)|]. now exists msg.
Qed.

Lemma Forall_is_map_In (l : list value) x :
  Forall (fun item => is_map item = true) l -> In x l -> is_map x = true.
Proof. rewrite Forall_forall. intros H Hin. now apply H, list_elem_of_In. Qed.

(* ================================================================== *)
(** ** [strconv.Quote] escapes what it must *)

Lemma well_escaped_app_aux (n : nat) : forall a b,
  (String.length a <= n)%nat ->
  well_escaped a = true -> well_escaped (a +:+ b) = well_escaped b.
Proof.
  induction n as [|n IH]; intros a b Hlen Ha.
  - destruct a; [reflexivity|cbn in Hlen; lia].
  - destruct a as [|c a]; [reflexivity|].
    rewrite app_cons. cbn [well_escaped] in Ha |- *.
    destruct (Ascii.eqb c "092"%char).
    + destruct a as [|d a]; [discriminate Ha|].
      rewrite app_cons. apply IH; [cbn in Hlen; lia|exact Ha].
    + destruct (Ascii.eqb c "034"%char || Ascii.eqb c "010"%char);
        [discriminate Ha|].
      apply IH; [cbn in Hlen; lia|exact Ha].
Qed.

Lemma well_escaped_app a b :
  well_escaped a = true -> well_escaped b = true ->
  well_escaped (a +:+ b) = true.
Proof.
  intros Ha Hb. rewrite (well_escaped_app_aux (String.length a)); auto.
Qed.

Lemma all_plain_well_escaped s : all_plain s = true -> well_escaped s = true.
Proof.
  induction s as [|c s IH]; [reflexivity|].
  cbn. unfold plain. intros [Hc Hs]%andb_prop.
  destruct (Ascii.eqb c "092"%char); [discriminate Hc|].
  destruct (Ascii.eqb c "034"%char); [discriminate Hc|].
  destruct (Ascii.eqb c "010"%char); [discriminate Hc|].
  cbn. exact (IH Hs).
Qed.

Lemma escape_well_escaped (c : ascii) s :
  all_plain s = true -> well_escaped (String "092" (String c s)) = true.
Proof. intros H. cbn. now apply all_plain_well_escaped. Qed.

Lemma nth_plain (l : list ascii) (d : ascii) (k : nat) :
  forallb plain l = true -> plain d = true -> plain (nth k l d) = true.
Proof.
  intros Hl Hd. destruct (nth_in_or_default k l d) as [Hin| ->]; [|exact Hd].
  rewrite forallb_forall in Hl. now apply Hl.
Qed.

Lemma lowerhex_plain n : plain (lowerhex n) = true.
Proof. unfold lowerhex. apply nth_plain; reflexivity. Qed.

Lemma hex_digits_plain r shifts : all_plain (hex_digits r shifts) = true.
Proof.
  unfold hex_digits. induction shifts as [|s shifts IH]; [reflexivity|].
  cbn [map string_of_list_ascii all_plain]. now rewrite lowerhex_plain, IH.
Qed.

Lemma hex_escape_well_escaped b : well_escaped (hex_escape b) = true.
Proof.
  unfold hex_escape. apply escape_well_escaped.
  cbn [all_plain]. now rewrite !lowerhex_plain.
Qed.

(** A property checked on every number below [n] holds below [n]. *)
Lemma below_forallb (P : Z -> bool) (n : nat) :
  forallb P (map Z.of_nat (seq 0 n)) = true ->
  forall y, 0 <= y < Z.of_nat n -> P y = true.
Proof.
  intros H y Hy. rewrite forallb_forall in H. apply H.
  apply in_map_iff. exists (Z.to_nat y). split; [lia|].
  apply in_seq. lia.
Qed.

Lemma to_byte_plain (r : Z) :
  0 <= r < 256 -> r <> 92 -> r <> 34 -> r <> 10 -> plain (to_byte r) = true.
Proof.
  intros Hr H1 H2 H3.
  assert (byte_val (to_byte r) = r) as Hv.
  { unfold byte_val, to_byte. rewrite N_ascii_embedding; lia. }
  unfold plain.
  destruct (Ascii.eqb_spec (to_byte r) "092"%char) as [E|_];
    [apply (f_equal byte_val) in E; rewrite Hv in E; vm_compute in E; lia|].
  destruct (Ascii.eqb_spec (to_byte r) "034"%char) as [E|_];
    [apply (f_equal byte_val) in E; rewrite Hv in E; vm_compute in E; lia|].
  destruct (Ascii.eqb_spec (to_byte r) "010"%char) as [E|_];
    [apply (f_equal byte_val) in E; rewrite Hv in E; vm_compute in E; lia|].
  reflexivity.
Qed.

Lemma cont_plain x : plain (utf8.cont x) = true.
Proof.
  unfold utf8.cont. change 0x3F with (Z.ones 6). rewrite Z.land_ones by lia.
  apply (below_forallb (fun y => plain (to_byte (Z.lor 0x80 y))) 64);
    [vm_compute; reflexivity|].
  change (Z.of_nat 64) with (2 ^ 6). apply Z.mod_pos_bound. lia.
Qed.

Lemma lead_plain (tag r k : Z) (n : nat) :
  forallb (fun y => plain (to_byte (Z.lor tag y))) (map Z.of_nat (seq 0 n)) = true ->
  0 <= k -> 0 <= r < Z.of_nat n * 2 ^ k ->
  plain (to_byte (Z.lor tag (Z.shiftr r k))) = true.
Proof.
  intros H Hk Hr.
  apply (below_forallb (fun y => plain (to_byte (Z.lor tag y))) n H).
  rewrite Z.shiftr_div_pow2 by lia. split.
  - apply Z.div_pos; lia.
  - apply Z.div_lt_upper_bound; lia.
Qed.

Lemma AppendRune_plain r :
  r <> 92 -> r <> 34 -> r <> 10 -> all_plain (utf8.AppendRune r) = true.
Proof.
  intros H1 H2 H3. unfold utf8.AppendRune, utf8.between, utf8.MaxRune.
  destruct ((0 <=? r) && (r <=? 127)) eqn:E1.
  { cbn [all_plain]. rewrite to_byte_plain; [reflexivity|lia..]. }
  destruct ((128 <=? r) && (r <=? 2047)) eqn:E2.
  { cbn [all_plain]. rewrite cont_plain.
    rewrite (lead_plain 0xC0 r 6 32);
      [reflexivity|vm_compute; reflexivity|lia|lia]. }
  destruct ((2048 <=? r) && (r <=? 65535)
            && negb ((55296 <=? r) && (r <=? 57343))) eqn:E3.
  { cbn [all_plain]. rewrite !cont_plain.
    rewrite (lead_plain 0xE0 r 12 16);
      [reflexivity|vm_compute; reflexivity|lia|lia]. }
  destruct ((65536 <=? r) && (r <=? 1114111)) eqn:E4.
  { cbn [all_plain]. rewrite !cont_plain.
    rewrite (lead_plain 0xF0 r 18 8);
      [reflexivity|vm_compute; reflexivity|lia|lia]. }
  reflexivity.
Qed.

Lemma appendEscapedRune_well_escaped r :
  well_escaped (appendEscapedRune r) = true.
Proof.
  unfold appendEscapedRune.
  destruct ((r =? 0x22) || (r =? 0x5C)) eqn:E0; [reflexivity|].
  destruct (IsPrint r) eqn:Ep.
  { apply all_plain_well_escaped, AppendRune_plain; try lia.
    intros ->. unfold IsPrint in Ep. cbn in Ep. discriminate Ep. }
  repeat (match goal with
          | |- context [if ?b then _ else _] => destruct b; [reflexivity|]
          end).
  destruct ((r <? 32) || (r =? 127)); [apply hex_escape_well_escaped|].
  destruct (negb (utf8.ValidRune r));
    [apply escape_well_escaped, hex_digits_plain|].
  destruct (r <? 65536); apply escape_well_escaped, hex_digits_plain.
Qed.

Lemma appendQuoted_well_escaped fuel s :
  well_escaped (appendQuoted fuel s) = true.
Proof.
  revert s. induction fuel as [|fuel IH]; intros s; [reflexivity|].
  destruct s as [|c0 s']; [reflexivity|].
  cbn [appendQuoted].
  destruct (if byte_val c0 <? 128 then _ else _) as [r width].
  apply well_escaped_app; [|apply IH].
  destruct ((width =? 1)%nat && (r =? utf8.RuneError));
    [apply hex_escape_well_escaped|apply appendEscapedRune_well_escaped].
Qed.

(** The quoted form of a string: a double quote, a text in which every
    double quote, backslash and line feed of the string has been replaced
    by a backslash escape, and a double quote. *)
Lemma strconv_Quote_shape s :
  exists body, strconv_Quote s = DQ +:+ body +:+ DQ
               /\ well_escaped body = true.
Proof.
  exists (appendQuoted (String.length s) s). split; [reflexivity|].
  apply appendQuoted_well_escaped.
Qed.


(** On a string of ASCII bytes the quoted text is made byte by byte. *)
Lemma appendQuoted_ascii (s : string) (fuel : nat) :
  (String.length s <= fuel)%nat -> is_ascii s = true ->
  appendQuoted fuel s
  = concat (map (fun c => appendEscapedRune (byte_val c))
                (list_ascii_of_string s)).
Proof.
  revert fuel. induction s as [|c s IH]; intros fuel Hlen Hs.
  - now destruct fuel.
  - destruct fuel as [|fuel]; [cbn in Hlen; lia|].
    cbn [is_ascii] in Hs. apply andb_prop in Hs as [Hc Hs].
    cbn [appendQuoted list_ascii_of_string map]. rewrite Hc.
    assert ((byte_val c =? utf8.RuneError) = false) as ->
      by (unfold utf8.RuneError; lia).
    cbn [Nat.eqb andb drop].
    change (concat (?a :: ?l)) with (a +:+ concat l).
    f_equal. apply IH; [cbn in Hlen; lia|exact Hs].
Qed.

Lemma to_byte_byte_val (c : ascii) : to_byte (byte_val c) = c.
Proof.
  unfold to_byte, byte_val. rewrite N2Z.id. apply ascii_N_embedding.
Qed.

(** A printable ASCII byte other than the double quote and the backslash
    is kept as it is. *)
Lemma appendEscapedRune_printable (c : ascii) :
  utf8.between 0x20 0x7E (byte_val c) = true ->
  byte_val c <> 0x22 -> byte_val c <> 0x5C ->
  appendEscapedRune (byte_val c) = String c EmptyString.
Proof.
  intros Hp Hq Hb. unfold appendEscapedRune, utf8.between in *.
  assert ((byte_val c =? 34) || (byte_val c =? 92) = false) as -> by lia.
  unfold IsPrint, utf8.between.
  assert ((byte_val c <=? 255) = true) as -> by lia.
  rewrite Hp. unfold utf8.AppendRune, utf8.between.
  assert ((0 <=? byte_val c) && (byte_val c <=? 127) = true) as -> by lia.
  now rewrite to_byte_byte_val.
Qed.

(** The fuel of [strconv_Quote] is enough: more fuel gives the same text. *)
Lemma DecodeRuneInString_width c0 s :
  (1 <= snd (utf8.DecodeRuneInString (String c0 s)))%nat.
Proof.
  unfold utf8.DecodeRuneInString.
  repeat match goal with
         | |- context [if ?b then _ else _] => destruct b
         | |- context [match ?x with _ => _ end] => destruct x
         end; cbn; lia.
Qed.

Lemma drop_length (n : nat) (s : string) :
  String.length (drop n s) = (String.length s - n)%nat.
Proof.
  revert s. induction n as [|n IH]; intros s; cbn.
  - lia.
  - destruct s as [|c s]; [reflexivity|]. cbn. apply IH.
Qed.

Lemma appendQuoted_fuel (fuel1 fuel2 : nat) (s : string) :
  (String.length s <= fuel1)%nat -> (String.length s <= fuel2)%nat ->
  appendQuoted fuel1 s = appendQuoted fuel2 s.
Proof.
  revert fuel2 s. induction fuel1 as [|fuel1 IH]; intros fuel2 s H1 H2.
  - destruct s; [|cbn in H1; lia]. now destruct fuel2.
  - destruct s as [|c0 s']; [now destruct fuel2|].
    destruct fuel2 as [|fuel2]; [cbn in H2; lia|].
    cbn [appendQuoted].
    pose proof (DecodeRuneInString_width c0 s') as Hw.
    destruct (byte_val c0 <? 128).
    + f_equal. apply IH; rewrite drop_length; cbn in *; lia.
    + destruct (utf8.DecodeRuneInString (String c0 s')) as [r width].
      f_equal. cbn [snd] in Hw.
      apply IH; rewrite drop_length; cbn in *; lia.
Qed.

(* ================================================================== *)
(** ** [fmt.Sprintf("%d")] prints bare decimal digits *)

Lemma all_digits_uint (d : Decimal.uint) :
  all_digits (NilEmpty.string_of_uint d) = true.
Proof. induction d; cbn [NilEmpty.string_of_uint all_digits]; auto. Qed.

Lemma all_digits_is_decimal (s : string) :
  s <> EmptyString -> all_digits s = true -> is_decimal s = true.
Proof.
  destruct s as [|c s]; [congruence|]. intros _ H. unfold is_decimal.
  destruct (Ascii.eqb_spec c "-"%char) as [->|_]; [discriminate H|exact H].
Qed.

Lemma string_of_uint_digits (d : Decimal.uint) :
  NilZero.string_of_uint d <> EmptyString
  /\ all_digits (NilZero.string_of_uint d) = true.
Proof.
  destruct d; cbn [NilZero.string_of_uint NilEmpty.string_of_uint];
    (split; [discriminate|]);
    try reflexivity;
    cbn [all_digits]; now rewrite all_digits_uint.
Qed.

Lemma fmt_d_is_decimal (n : Z) : is_decimal (fmt_d n) = true.
Proof.
  unfold fmt_d. destruct (Z.to_int n) as [d|d];
    cbn [NilZero.string_of_int];
    destruct (string_of_uint_digits d) as [Hne Hd].
  - now apply all_digits_is_decimal.
  - unfold is_decimal. cbn. rewrite Hd.
    destruct (String.eqb_spec (NilZero.string_of_uint d) EmptyString);
      [contradiction|reflexivity].
Qed.

(** Reading the printed text back gives the number. *)
Lemma fmt_d_read_back (n : Z) :
  option_map Z.of_int (NilZero.int_of_string (fmt_d n)) = Some n.
Proof.
  unfold fmt_d. rewrite NilZero.isi.
  - cbn. now rewrite DecimalZ.of_to.
  - destruct n; cbn; try discriminate.
    intros [= H]. now apply DecimalPos.Unsigned.to_uint_nonnil in H.
  - destruct n; cbn; try discriminate.
    intros [= H]. now apply DecimalPos.Unsigned.to_uint_nonnil in H.
Qed.

(* ================================================================== *)
(** ** Values the renderer returns on *)

Lemma value_nested_ind (P : value -> Prop) :
  (forall s, P (VString s)) ->
  (forall b, P (VBool b)) ->
  (forall k n, P (VInt k n)) ->
  (forall l, Forall P l -> P (VList l)) ->
  (forall m, Forall (fun kv => P (snd kv)) m -> P (VMap m)) ->
  (forall t, P (VOther t)) ->
  forall v, P v.
Proof.
  intros Hs Hb Hi Hl Hm Ho.
  fix IH 1. intros [s|b|k n|l|m|t].
  - apply Hs.
  - apply Hb.
  - apply Hi.
  - apply Hl. induction l as [|x l IHl]; constructor; [apply IH|exact IHl].
  - apply Hm. induction m as [|[k x] m IHm]; constructor;
      [apply IH|exact IHm].
  - apply Ho.
Qed.

Lemma map_loop_returns (nested : string -> value -> outcome string)
  (m : list (string * value)) (attrName : string) :
  Forall (fun kv => isPrimitive (snd kv) = false ->
                    exists t, nested (fst kv) (snd kv) = Returns t) m ->
  exists t, mapAttributeString nested attrName m = Returns t.
Proof.
  intros Hm. unfold mapAttributeString.
  generalize (attrName +:+ " {" +:+ LF) as s.
  induction Hm as [|[k x] m Hx _ IH]; intros s.
  - cbn. eauto.
  - cbn [for_range fst snd]. cbn [fst snd] in Hx.
    destruct (isPrimitive x) eqn:Ep; cbn [obind].
    + apply IH.
    + destruct (Hx eq_refl) as [t ->]. cbn [obind]. apply IH.
Qed.

Lemma blocks_loop_total f (l : list value) (s : string) :
  Forall (fun item => exists m t, item = VMap m /\ f m = Returns t) l ->
  exists out, blocks_loop f l s = Returns out.
Proof.
  intros Hl. revert s. induction Hl as [|item l (m & t & -> & Hm) _ IH];
    intros s.
  - cbn. eauto.
  - unfold blocks_loop. cbn [for_range]. fold (blocks_loop f).
    rewrite Hm. cbn [obind]. apply IH.
Qed.

Lemma getAttributeString_returns (v : value) :
  renderable v = true ->
  forall attrName, exists t, getAttributeString attrName v = Returns t.
Proof.
  induction v as [s|b|k n|l IHl|m IHm|t] using value_nested_ind;
    intros Hr attrName; try (cbn; eauto; fail).
  - rewrite getAttributeString_list.
    destruct l as [|v0 l]; [cbn; eauto|].
    cbn [length Nat.ltb Nat.leb andb].
    destruct (isPrimitive v0) eqn:Ep; [eauto|].
    cbn [renderable] in Hr. rewrite Ep in Hr. cbn [orb] in Hr.
    apply blocks_loop_total.
    rewrite forallb_forall in Hr. rewrite Forall_forall in IHl |- *.
    intros item Hin. pose proof (IHl item Hin) as IHitem.
    apply list_elem_of_In in Hin. specialize (Hr item Hin).
    destruct item as [| | | |mi|]; try discriminate Hr.
    assert (renderable (VMap mi) = true) as Hmi by exact Hr.
    destruct (IHitem Hmi attrName) as [t Ht].
    rewrite getAttributeString_map in Ht.
    destruct mi as [|e mi].
    + exists []. cbn. eauto.
    + cbn [length Nat.ltb Nat.leb] in Ht.
      destruct (getMapAttributeString attrName (e :: mi)) as [t'|] eqn:E;
        [|discriminate Ht].
      exists (e :: mi), t'. split; [reflexivity|exact E].
  - rewrite getAttributeString_map.
    destruct (0 <? length m)%nat; [|eauto].
    cbn [renderable] in Hr. rewrite forallb_forall in Hr.
    destruct (map_loop_returns getAttributeString m attrName) as [t Ht].
    + rewrite Forall_forall in IHm |- *. intros kv Hin _.
      apply IHm; [exact Hin|]. apply Hr. now apply list_elem_of_In.
    + unfold getMapAttributeString. rewrite Ht. cbn. eauto.
Qed.

Lemma renderAll_total (l : list (string * value)) (s : string) :
  Forall (fun nv => renderable (snd nv) = true) l ->
  exists out, renderAll l s = Returns out.
Proof.
  intros Hl. revert s. induction Hl as [|[n v] l Hv _ IH]; intros s.
  - cbn. eauto.
  - unfold renderAll. cbn [for_range fst snd]. fold (renderAll l).
    destruct (getAttributeString_returns v Hv n) as [t ->]. cbn [obind].
    apply IH.
Qed.

(** A call returns when every value it renders is renderable. *)
Lemma resourceBlock_returns (c : Caller) :
  Forall (fun nv => renderable (snd nv) = true) (renderedAttributes c) ->
  exists out, resourceBlock c = (Returns out, with_id_excluded c).
Proof.
  intros H. rewrite resourceBlock_run.
  destruct (renderAll_total _ (header (c_state c) +:+ LF) H) as [s ->].
  cbn [obind]. eauto.
Qed.

(* ================================================================== *)
(** ** Properties of the renderer *)

Lemma contains_app_inner (a b s : string) :
  contains (a +:+ b) s -> contains a s.
Proof.
  intros (pre & post & ->). exists pre, (b +:+ post). now rewrite !app_assoc.
Qed.

Lemma Forall2_rendered (l : list (string * value)) (texts : list string) nv :
  Forall2 (fun nv t => getAttributeString (fst nv) (snd nv) = Returns t)
          l texts ->
  nv ∈ l ->
  exists t, getAttributeString (fst nv) (snd nv) = Returns t /\ In t texts.
Proof.
  induction 1 as [|nv' t l texts Ht _ IH]; intros Hin.
  - inversion Hin.
  - apply elem_of_cons in Hin as [->|Hin].
    + exists t. split; [exact Ht|now left].
    + destruct (IH Hin) as (t' & Ht' & Hin'). exists t'. split; [exact Ht'|now right].
Qed.

Lemma text_contains_attribute (c : Caller) out c' nv :
  resourceBlock c = (Returns out, c') ->
  nv ∈ renderedAttributes c ->
  exists t, getAttributeString (fst nv) (snd nv) = Returns t /\ contains t out.
Proof.
  intros Hrun Hin.
  apply resourceBlock_text in Hrun as (texts & HF & ->).
  destruct (Forall2_rendered _ _ _ HF Hin) as (t & Ht & Hint).
  exists t. split; [exact Ht|].
  apply contains_app_r, contains_app_r, contains_app_l.
  now apply contains_concat.
Qed.

(** What a call returns is the formatter's output on the text it built. *)
Lemma GetResourceStateConfigString_inv (c : Caller) result c' :
  GetResourceStateConfigString c = (Returns result, c') ->
  exists out, resourceBlock c = (Returns out, c')
              /\ result = formatConfig out.
Proof.
  unfold GetResourceStateConfigString, bind, ret.
  destruct (resourceBlock c) as [[out|msg] c1]; [|discriminate].
  intros [= <- <-]. now exists out.
Qed.

(** C1 (as amended). For every attribute name, the value renderer returns
    the empty text for an empty list and for an empty map, so a turn of the
    rendering loop on a name that is not excluded, takes its value from the
    state and expands to an empty list or an empty map adds nothing to the
    block. An empty list after the list opener, and an empty block after the
    block opener, are what the list helper and the map helper return when
    they are themselves called on an empty list or map. *)
Theorem C1_empty_values_render_nothing (attrName : string) :
  getAttributeString attrName (VList []) = Returns EmptyString
  /\ getAttributeString attrName (VMap []) = Returns EmptyString
  /\ (forall attrs attrNames s (c : Caller),
        attrName ∉ c_excludes c ->
        default false (attrNames !! attrName) = false ->
        (flatmap_Expand attrs attrName = VList []
         \/ flatmap_Expand attrs attrName = VMap []) ->
        renderAttribute attrs attrNames s attrName c = (Returns s, c))
  /\ getPrimitiveAttributeListString attrName []
     = attrName +:+ " = [" +:+ LF +:+ "]" +:+ LF
  /\ getMapAttributeString attrName []
     = Returns (attrName +:+ " {" +:+ LF +:+ "}" +:+ LF).
Proof.
  repeat split.
  - intros attrs attrNames s c Hex Hflag Hval.
    rewrite renderAttribute_run. unfold chosenValue.
    rewrite decide_False by exact Hex. rewrite Hflag.
    assert (getAttributeString attrName (flatmap_Expand attrs attrName)
            = Returns EmptyString) as Hnone
      by (destruct Hval as [-> | ->]; reflexivity).
    destruct (c_defaults c !! attrName); rewrite Hnone; cbn [obind];
      now rewrite app_nil_r.
  - unfold getPrimitiveAttributeListString. cbn [foldl].
    now rewrite !app_assoc.
  - unfold getMapAttributeString, mapAttributeString. cbn [for_range obind].
    now rewrite !app_assoc.
Qed.

(** C3. A name in the excludes set, and the name ["id"], is not among the
    attributes a call renders, whether or not the state or the defaults have
    it: what the call returns is the formatter's output on the header, the
    renderings of exactly the rendered attributes in order, the dependencies
    and the closing brace. *)
Theorem C3_excluded_names_absent (c : Caller) (attrName : string) :
  (attrName ∈ c_excludes c \/ attrName = "id") ->
  (attrName ∉ map fst (renderedAttributes c))
  /\ forall result c',
       GetResourceStateConfigString c = (Returns result, c') ->
       exists out texts,
         result = formatConfig out
         /\ Forall2 (fun nv t =>
                       getAttributeString (fst nv) (snd nv) = Returns t)
                    (renderedAttributes c) texts
         /\ out = header (c_state c) +:+ LF +:+ concat texts
                  +:+ getDependsString (Dependencies (c_state c))
                  +:+ "}" +:+ LF.
Proof.
  intros Hex. split.
  - rewrite renderedAttributes_names. intros Hin.
    apply list_elem_of_In, filter_In in Hin as [_ Hb].
    apply bool_decide_eq_true in Hb. apply Hb.
    destruct Hex as [Hex| ->].
    + now apply elem_of_union_r.
    + now apply elem_of_union_l, elem_of_singleton.
  - intros result c' Hcall.
    apply GetResourceStateConfigString_inv in Hcall as (out & Hrun & ->).
    apply resourceBlock_text in Hrun as (texts & HF & ->).
    eexists. exists texts. split; [reflexivity|]. split; [exact HF|reflexivity].
Qed.

(** The state names are the first segments of the flat keys. *)
Lemma elem_of_stateNames (attrs : gmap string string) (n : string) :
  n ∈ stateNames attrs
  <-> exists k, is_Some (attrs !! k) /\ topLevelName k = n.
Proof.
  unfold stateNames. rewrite elem_of_map. split.
  - intros (k & -> & Hk). exists k. split; [now apply elem_of_dom|reflexivity].
  - intros (k & Hk & <-). exists k. split; [reflexivity|now apply elem_of_dom].
Qed.

(** C4. A name that no flat key of the state has as its first segment, that
    the defaults map to a value, and that is not excluded, is rendered from
    that default value: the pair is among the rendered attributes, and what
    the call returns is the formatter's output on a text in which the
    rendering of the default occurs. In particular a default [region] of
    [us-east-1] puts [region = "us-east-1"] in that text. *)
Theorem C4_default_only_attribute (c : Caller) (attrName : string)
  (defaultValue : value) :
  attrName ∉ stateNames (Attributes (Primary (c_state c))) ->
  c_defaults c !! attrName = Some defaultValue ->
  attrName ∉ c_excludes c ->
  attrName <> "id" ->
  (attrName, defaultValue) ∈ renderedAttributes c
  /\ (forall result c',
        GetResourceStateConfigString c = (Returns result, c') ->
        exists out t,
          result = formatConfig out
          /\ getAttributeString attrName defaultValue = Returns t
          /\ contains t out)
  /\ (attrName = "region" -> defaultValue = VString "us-east-1" ->
      forall result c',
        GetResourceStateConfigString c = (Returns result, c') ->
        exists out,
          result = formatConfig out
          /\ contains ("region = " +:+ DQ +:+ "us-east-1" +:+ DQ) out).
Proof.
  intros Hnot Hdef Hex Hid.
  assert ((attrName, defaultValue) ∈ renderedAttributes c) as Hin.
  { unfold renderedAttributes. apply list_elem_of_omap. exists attrName. split.
    - apply sortedNames_elem_of. rewrite attributeNames_dom.
      apply elem_of_union_r, elem_of_dom. exists defaultValue. exact Hdef.
    - unfold chosenValue.
      rewrite decide_False
        by (intros [Hi|He]%elem_of_union;
            [apply elem_of_singleton in Hi|]; contradiction).
      rewrite Hdef, attributeNames_lookup.
      rewrite decide_False by exact Hnot.
      rewrite decide_True
        by (apply elem_of_dom; exists defaultValue; exact Hdef).
      reflexivity. }
  split; [exact Hin|]. split.
  - intros result c' Hcall.
    apply GetResourceStateConfigString_inv in Hcall as (out & Hrun & ->).
    destruct (text_contains_attribute c out c' (attrName, defaultValue)
                Hrun Hin) as (t & Ht & Hc).
    now exists out, t.
  - intros -> -> result c' Hcall.
    apply GetResourceStateConfigString_inv in Hcall as (out & Hrun & ->).
    destruct (text_contains_attribute c out c' _ Hrun Hin) as (t & Ht & Hc).
    cbn [fst snd] in Ht. vm_compute in Ht. injection Ht as <-.
    exists out. split; [reflexivity|].
    apply (contains_app_inner _ LF). exact Hc.
Qed.

(** C7. What a call returns is the formatter's output on a text that starts
    with the header [resource "<type>" "<sanitizedID>" {], where the
    sanitized identifier is the primary identifier with every delimiter byte
    [.] replaced by [_] and every other byte kept; type [widget] with
    identifier [a.b.c] gives [resource "widget" "a_b_c" {]. *)
Theorem C7_header :
  (forall (c : Caller) result c',
     GetResourceStateConfigString c = (Returns result, c') ->
     exists out,
       result = formatConfig out
       /\ starts_with ("resource " +:+ DQ +:+ Type_ (c_state c) +:+ DQ +:+ " "
                       +:+ DQ +:+ sanitizeResourceID (ID (Primary (c_state c)))
                       +:+ DQ +:+ " {") out)
  /\ (forall id,
        String.length (sanitizeResourceID id) = String.length id
        /\ mem "."%char (sanitizeResourceID id) = false
        /\ forall i : nat,
             String.get i (sanitizeResourceID id)
             = option_map (fun ch => if Ascii.eqb ch "."%char
                                     then "_"%char else ch)
                          (String.get i id))
  /\ (forall (c : Caller) result c',
        Type_ (c_state c) = "widget" ->
        ID (Primary (c_state c)) = "a.b.c" ->
        GetResourceStateConfigString c = (Returns result, c') ->
        exists out,
          result = formatConfig out
          /\ starts_with ("resource " +:+ DQ +:+ "widget" +:+ DQ +:+ " "
                          +:+ DQ +:+ "a_b_c" +:+ DQ +:+ " {") out).
Proof.
  assert (forall (c : Caller) result c',
            GetResourceStateConfigString c = (Returns result, c') ->
            exists out, result = formatConfig out
                        /\ starts_with (header (c_state c)) out) as Hhead.
  { intros c result c' Hcall.
    apply GetResourceStateConfigString_inv in Hcall as (out & Hrun & ->).
    apply resourceBlock_text in Hrun as (texts & _ & ->).
    eexists. split; [reflexivity|]. eexists. reflexivity. }
  split; [exact Hhead|]. split.
  - intros id. unfold sanitizeResourceID. split; [|split].
    + apply strings_Replace_all_length.
    + now apply strings_Replace_all_mem.
    + intros i. apply strings_Replace_all_get.
  - intros c result c' Hty Hid Hcall.
    destruct (Hhead c result c' Hcall) as (out & Hres & Hst).
    exists out. split; [exact Hres|].
    unfold header in Hst. now rewrite Hty, Hid in Hst.
Qed.

(** C8. The primitive renderer gives, for a string, [strconv.Quote] of it:
    a double quote, a text in which each double quote, backslash and line
    feed stands in a backslash escape, and a double quote; on an ASCII
    string the text is made byte by byte, a double quote, a backslash and a
    line feed becoming their two-byte escapes and any other printable byte
    being kept. For a boolean it gives [true] or [false] between double
    quotes; for an integer of any of the five widths, its bare decimal
    digits, which read back as the integer; and for a list, a map or a value
    of any other type, the text [unknown]. It is a total function: no input
    makes it fail. *)
Theorem C8_primitive_values :
  (forall s, getPrimitiveValueString (VString s) = strconv_Quote s
             /\ exists body, strconv_Quote s = DQ +:+ body +:+ DQ
                             /\ well_escaped body = true)
  /\ (forall s, is_ascii s = true ->
                 strconv_Quote s
                 = DQ +:+ concat (map (fun c => appendEscapedRune (byte_val c))
                                      (list_ascii_of_string s)) +:+ DQ)
  /\ appendEscapedRune 0x22 = "\" +:+ DQ
  /\ appendEscapedRune 0x5C = "\\"
  /\ appendEscapedRune 0x0A = "\n"
  /\ (forall c, utf8.between 0x20 0x7E (byte_val c) = true ->
                 byte_val c <> 0x22 -> byte_val c <> 0x5C ->
                 appendEscapedRune (byte_val c) = String c EmptyString)
  /\ getPrimitiveValueString
       (VString ("say " +:+ DQ +:+ "hi" +:+ DQ +:+ " \ " +:+ LF +:+ "end"))
     = DQ +:+ "say \" +:+ DQ +:+ "hi\" +:+ DQ +:+ " \\ \nend" +:+ DQ
  /\ getPrimitiveValueString (VBool true) = DQ +:+ "true" +:+ DQ
  /\ getPrimitiveValueString (VBool false) = DQ +:+ "false" +:+ DQ
  /\ (forall k n, getPrimitiveValueString (VInt k n) = fmt_d n
                  /\ is_decimal (fmt_d n) = true
                  /\ option_map Z.of_int (NilZero.int_of_string (fmt_d n))
                     = Some n)
  /\ (forall l, getPrimitiveValueString (VList l) = "unknown")
  /\ (forall m, getPrimitiveValueString (VMap m) = "unknown")
  /\ (forall t, getPrimitiveValueString (VOther t) = "unknown").
Proof.
  split; [intros s; split; [reflexivity|apply strconv_Quote_shape]|].
  split.
  { intros s Hs. unfold strconv_Quote. now rewrite appendQuoted_ascii. }
  split; [reflexivity|]. split; [reflexivity|]. split; [reflexivity|].
  split; [exact appendEscapedRune_printable|].
  split; [vm_compute; reflexivity|].
  repeat split.
  - apply fmt_d_is_decimal.
  - apply fmt_d_read_back.
Qed.

(** C9. A call leaves the caller's objects as they were, except that ["id"]
    is in the excludes set afterwards: the resource state and the defaults
    map are the same, and the excludes set is the old one with ["id"]
    added. This holds for a call that panics as well. *)
Theorem C9_only_id_is_inserted (c : Caller) :
  c_excludes (snd (GetResourceStateConfigString c)) = {[ "id" ]} ∪ c_excludes c
  /\ c_state (snd (GetResourceStateConfigString c)) = c_state c
  /\ c_defaults (snd (GetResourceStateConfigString c)) = c_defaults c.
Proof. rewrite GetResourceStateConfigString_run. repeat split. Qed.

(** C10. On a list whose first element is not primitive, the value renderer
    asserts every element to be a string-keyed map: it returns only when all
    elements are maps, and panics when some element is not. A list that
    starts with a map the map renderer returns on, followed by an element
    that is not a map (a primitive, say), panics with the failed
    conversion. The copy of the renderer in [main.go] does the same. *)
Theorem C10_list_elements_asserted_as_maps (attrName : string) (v0 : value)
  (rest : list value) :
  isPrimitive v0 = false ->
  (forall out, getAttributeString attrName (VList (v0 :: rest)) = Returns out ->
               Forall (fun item => is_map item = true) (v0 :: rest))
  /\ (forall item, In item (v0 :: rest) -> is_map item = false ->
        exists msg, getAttributeString attrName (VList (v0 :: rest)) = Panics msg)
  /\ (forall m t item post,
        v0 = VMap m -> getMapAttributeString attrName m = Returns t ->
        rest = item :: post -> is_map item = false ->
        getAttributeString attrName (VList (v0 :: rest)) = Panics conversion_panic)
  /\ (forall out, AttributeToString attrName (VList (v0 :: rest)) = Returns out ->
               Forall (fun item => is_map item = true) (v0 :: rest))
  /\ (forall m t item post,
        v0 = VMap m -> MapAttributeToString attrName m = Returns t ->
        rest = item :: post -> is_map item = false ->
        AttributeToString attrName (VList (v0 :: rest)) = Panics conversion_panic).
Proof.
  intros Hprim.
  assert (IsPrimitive v0 = false) as Hprim'
    by (destruct v0 as [| |[]| | |]; try discriminate Hprim; reflexivity).
  assert (forall out, getAttributeString attrName (VList (v0 :: rest)) = Returns out ->
                      Forall (fun item => is_map item = true) (v0 :: rest)) as Hret.
  { intros out. rewrite getAttributeString_list.
    cbn [length Nat.ltb Nat.leb andb]. rewrite Hprim.
    apply blocks_loop_returns. }
  split; [exact Hret|]. split; [|split; [|split]].
  - intros item Hin Hitem. apply not_returns_panics. intros out Hout.
    pose proof (Forall_is_map_In _ _ (Hret out Hout) Hin). congruence.
  - intros m t item post -> Hm -> Hitem. rewrite getAttributeString_list.
    cbn [length Nat.ltb Nat.leb andb isPrimitive].
    apply (blocks_loop_panics _ [VMap m] item post).
    + constructor; [|constructor]. now exists m, t.
    + exact Hitem.
  - intros out. rewrite AttributeToString_list.
    cbn [length Nat.ltb Nat.leb andb]. rewrite Hprim'.
    apply blocks_loop_returns.
  - intros m t item post -> Hm -> Hitem. rewrite AttributeToString_list.
    cbn [length Nat.ltb Nat.leb andb IsPrimitive].
    apply (blocks_loop_panics _ [VMap m] item post).
    + constructor; [|constructor]. now exists m, t.
    + exact Hitem.
Qed.

(* ================================================================== *)
(** ** The helpers of the value renderer *)

Lemma foldl_append_concat {A} (f : A -> string) (l : list A) (init : string) :
  foldl (fun s v => s +:+ f v) init l = init +:+ concat (map f l).
Proof.
  revert init. induction l as [|a l IH]; intros init.
  - cbn. now rewrite app_nil_r.
  - cbn [foldl map]. rewrite IH.
    change (concat (f a :: map f l)) with (f a +:+ concat (map f l)).
    now rewrite app_assoc.
Qed.

Lemma app_length (s t : string) :
  String.length (s +:+ t) = (String.length s + String.length t)%nat.
Proof.
  induction s as [|c s IH]; [reflexivity|].
  rewrite app_cons. cbn. now rewrite IH.
Qed.

Lemma app_empty (s t : string) :
  s +:+ t = EmptyString -> s = EmptyString /\ t = EmptyString.
Proof.
  destruct s; [rewrite app_nil_l; intros ->; now split|].
  rewrite app_cons. discriminate.
Qed.

Lemma appendEscapedRune_nonempty r : appendEscapedRune r <> EmptyString.
Proof.
  unfold appendEscapedRune, hex_escape, utf8.AppendRune.
  repeat match goal with
         | |- context [if ?b then _ else _] => destruct b
         end; discriminate.
Qed.

Lemma appendQuoted_empty (s : string) (fuel : nat) :
  (String.length s <= fuel)%nat ->
  appendQuoted fuel s = EmptyString -> s = EmptyString.
Proof.
  destruct s as [|c0 s']; [reflexivity|].
  destruct fuel as [|fuel]; [cbn; lia|]. intros _ H. exfalso.
  cbn [appendQuoted] in H.
  destruct (if byte_val c0 <? 128 then _ else _) as [r width].
  apply app_empty in H as [H _].
  destruct ((width =? 1)%nat && (r =? utf8.RuneError)).
  - discriminate H.
  - now apply appendEscapedRune_nonempty in H.
Qed.

(** Only the empty string is quoted as two double quotes. *)
Lemma strconv_Quote_empty (s : string) :
  strconv_Quote s = DQ +:+ DQ <-> s = EmptyString.
Proof.
  split; [|intros ->; reflexivity].
  unfold strconv_Quote. intros H. apply (inj (String.append DQ)) in H.
  assert (appendQuoted (String.length s) s = EmptyString) as Hb.
  { apply (f_equal String.length) in H. rewrite app_length in H.
    destruct (appendQuoted (String.length s) s); [reflexivity|].
    cbn in H. lia. }
  now apply appendQuoted_empty in Hb.
Qed.

Lemma getPrimitiveValueString_two_quotes (v : value) :
  getPrimitiveValueString v = DQ +:+ DQ <-> v = VString EmptyString.
Proof.
  split; [|intros ->; reflexivity].
  destruct v as [s|b|k n|l|m|t]; cbn [getPrimitiveValueString].
  - intros H. apply strconv_Quote_empty in H. now subst.
  - destruct b; discriminate.
  - intros H. pose proof (fmt_d_is_decimal n) as Hd. rewrite H in Hd.
    discriminate Hd.
  - discriminate.
  - discriminate.
  - discriminate.
Qed.

(** X4. The primitive attribute renderer returns the empty text exactly for
    the key [date] with the empty string as its value; for every other key
    or value (a [date] with a boolean, a number or a non-empty string
    included) it returns the line [key = value]. *)
Theorem X4_date_carve_out (k : string) (rawValue : value) :
  (getPrimitiveAttributeString k rawValue = EmptyString
   <-> k = "date" /\ rawValue = VString EmptyString)
  /\ (getPrimitiveAttributeString k rawValue <> EmptyString ->
      getPrimitiveAttributeString k rawValue
      = k +:+ " = " +:+ getPrimitiveValueString rawValue +:+ LF).
Proof.
  unfold getPrimitiveAttributeString.
  destruct (String.eqb_spec k "date") as [->|Hk]; cbn [andb].
  - destruct (String.eqb_spec (getPrimitiveValueString rawValue) (DQ +:+ DQ))
      as [Hv|Hv].
    + split; [|congruence]. split; [|reflexivity].
      intros _. split; [reflexivity|].
      now apply getPrimitiveValueString_two_quotes.
    + split; [|reflexivity]. split; [discriminate|].
      intros [_ ->]. now destruct Hv.
  - split; [|reflexivity]. split.
    + intros H. apply app_empty in H as [_ H].
      apply app_empty in H as [H _]. discriminate H.
    + intros [-> _]. now destruct Hk.
Qed.

(** X3. The dependency renderer returns the empty text for no dependencies;
    otherwise the opener [depends_on = [], the quoted dependencies in the
    order of the slice with nothing between them, and the closing bracket. *)
Theorem X3_depends_in_order (dependencies : list string) :
  getDependsString [] = EmptyString
  /\ (dependencies <> [] ->
      getDependsString dependencies
      = "depends_on = [" +:+ LF
        +:+ concat (map strconv_Quote dependencies) +:+ "]" +:+ LF).
Proof.
  split; [reflexivity|]. intros Hne.
  destruct dependencies as [|d deps]; [congruence|].
  unfold getDependsString. cbn [length Nat.ltb Nat.leb].
  rewrite (foldl_append_concat (fun v => getPrimitiveValueString (VString v))).
  now rewrite !app_assoc.
Qed.

Lemma getPrimitiveAttributeListString_concat attrName (list : list value) :
  getPrimitiveAttributeListString attrName list
  = attrName +:+ " = [" +:+ LF +:+ concat (map listElement list)
    +:+ "]" +:+ LF.
Proof.
  unfold getPrimitiveAttributeListString.
  rewrite (foldl_append_concat listElement). now rewrite !app_assoc.
Qed.

(** X5. A list whose first element is primitive never makes the value
    renderer panic: it returns the list opener, every element in order
    followed by a comma, and the closing bracket, where an element that is
    not primitive (a map or a list further down the list, say) is printed as
    [unknown]. *)
Theorem X5_primitive_list (attrName : string) (v0 : value)
  (rest : list value) :
  isPrimitive v0 = true ->
  getAttributeString attrName (VList (v0 :: rest))
  = Returns (attrName +:+ " = [" +:+ LF
             +:+ concat (map listElement (v0 :: rest)) +:+ "]" +:+ LF)
  /\ (forall v, In v (v0 :: rest) -> isPrimitive v = false ->
                listElement v = "unknown,").
Proof.
  intros Hp. split.
  - rewrite getAttributeString_list. cbn [length Nat.ltb Nat.leb andb].
    rewrite Hp. now rewrite getPrimitiveAttributeListString_concat.
  - intros v _ Hv. unfold listElement.
    destruct v; try discriminate Hv; reflexivity.
Qed.


Lemma getAttributeString_primitive attrName (v : value) :
  isPrimitive v = true ->
  getAttributeString attrName v
  = Returns (getPrimitiveAttributeString attrName v).
Proof. destruct v; try discriminate; reflexivity. Qed.

Lemma obind_Returns {A} (o : outcome A) : (let! a := o in Returns a) = o.
Proof. now destruct o. Qed.

(** The test on [isPrimitive] in the map renderer makes no difference: each
    entry is rendered as the value renderer renders it. *)
Lemma getMapAttributeString_renderAll attrName (m : list (string * value)) :
  getMapAttributeString attrName m
  = let! s := renderAll m (attrName +:+ " {" +:+ LF) in
    Returns (s +:+ "}" +:+ LF).
Proof.
  unfold getMapAttributeString, mapAttributeString, renderAll.
  generalize (attrName +:+ " {" +:+ LF) as s.
  induction m as [|[k v] m IH]; intros s; [reflexivity|].
  cbn [for_range fst snd].
  destruct (isPrimitive v) eqn:Ep.
  - rewrite (getAttributeString_primitive k v Ep). cbn [obind]. apply IH.
  - destruct (getAttributeString k v); cbn [obind]; [apply IH|reflexivity].
Qed.

(** X6. The map renderer returns exactly when the value renderer returns on
    every entry, and then gives the block opener, the renderings of the
    entries in the order they are visited, and the closing brace; in
    particular it renders an entry with a primitive value the same way the
    value renderer does. It never returns the empty text. *)
Theorem X6_map_block (attrName : string) (m : list (string * value))
  (out : string) :
  (getMapAttributeString attrName m = Returns out
   <-> exists texts,
         Forall2 (fun kv t => getAttributeString (fst kv) (snd kv) = Returns t)
                 m texts
         /\ out = attrName +:+ " {" +:+ LF +:+ concat texts +:+ "}" +:+ LF)
  /\ getMapAttributeString attrName m <> Returns EmptyString.
Proof.
  rewrite getMapAttributeString_renderAll. split.
  - split.
    + destruct (renderAll m _) as [s|msg] eqn:E; [|discriminate].
      cbn [obind]. intros [= <-].
      apply renderAll_returns in E as (texts & HF & ->).
      exists texts. split; [exact HF|]. now rewrite !app_assoc.
    + intros (texts & HF & ->).
      assert (renderAll m (attrName +:+ " {" +:+ LF)
              = Returns ((attrName +:+ " {" +:+ LF) +:+ concat texts)) as ->
        by (apply renderAll_returns; now exists texts).
      cbn [obind]. now rewrite !app_assoc.
  - destruct (renderAll m _) as [s|msg]; [|discriminate].
    cbn [obind]. intros [= H].
    apply app_empty in H as [_ H]. discriminate H.
Qed.

Lemma blocks_loop_concat f (l : list value) (texts : list string) (s : string) :
  Forall2 (fun item t => exists m, item = VMap m /\ f m = Returns t) l texts ->
  blocks_loop f l s = Returns (s +:+ concat texts).
Proof.
  intros HF. revert s.
  induction HF as [|item t l texts (m & -> & Hm) _ IH]; intros s.
  - cbn. now rewrite app_nil_r.
  - unfold blocks_loop. cbn [for_range]. fold (blocks_loop f).
    rewrite Hm. cbn [obind]. rewrite IH.
    change (concat (t :: texts)) with (t +:+ concat texts).
    now rewrite app_assoc.
Qed.

(** X7. A list of maps is rendered as one block per element, all under the
    name of the list, one after the other in the order of the list. *)
Theorem X7_one_block_per_element (attrName : string) (l : list value)
  (texts : list string) :
  Forall2 (fun item t =>
             exists m, item = VMap m
                       /\ getMapAttributeString attrName m = Returns t)
          l texts ->
  getAttributeString attrName (VList l) = Returns (concat texts).
Proof.
  intros HF. rewrite getAttributeString_list.
  assert ((0 <? length l)%nat
          && match l with v0 :: _ => isPrimitive v0 | [] => false end
          = false) as ->.
  { destruct HF as [|item t l texts (m & -> & _) _]; [reflexivity|].
    cbn. reflexivity. }
  rewrite (blocks_loop_concat _ l texts); [|exact HF].
  now rewrite app_nil_l.
Qed.

(* ================================================================== *)
(** ** When the renderer panics *)

Lemma blocks_loop_bad f (l : list value) (s : string) :
  Exists (fun item => match item with
                      | VMap m => exists msg, f m = Panics msg
                      | _ => True
                      end) l ->
  exists msg, blocks_loop f l s = Panics msg.
Proof.
  intros Hex. revert s. induction l as [|item l IH]; intros s.
  - inversion Hex.
  - unfold blocks_loop. cbn [for_range]. fold (blocks_loop f).
    destruct item as [| | | |m|]; try (cbn; eauto; fail).
    destruct (f m) as [t|msg] eqn:Em; cbn [obind]; [|eauto].
    apply IH. apply Exists_cons in Hex as [[msg Hm]|Hex]; [congruence|exact Hex].
Qed.

Lemma map_loop_bad (nested : string -> value -> outcome string)
  (m : list (string * value)) (attrName : string) :
  Exists (fun kv => isPrimitive (snd kv) = false
                    /\ exists msg, nested (fst kv) (snd kv) = Panics msg) m ->
  exists msg, mapAttributeString nested attrName m = Panics msg.
Proof.
  intros Hex. unfold mapAttributeString.
  generalize (attrName +:+ " {" +:+ LF) as s.
  induction m as [|[k v] m IH]; intros s; [inversion Hex|].
  cbn [for_range fst snd].
  destruct (isPrimitive v) eqn:Ep; cbn [obind].
  - apply Exists_cons in Hex as [[Hp _]|Hex]; [cbn in Hp; congruence|].
    destruct (IH Hex (s +:+ getPrimitiveAttributeString k v)) as [msg Hmsg].
    exists msg. exact Hmsg.
  - destruct (nested k v) as [t|msg] eqn:En; cbn [obind]; [|eauto].
    apply Exists_cons in Hex as [[_ [msg Hm]]|Hex];
      [cbn in Hm; congruence|].
    destruct (IH Hex (s +:+ t)) as [msg Hmsg]. exists msg. exact Hmsg.
Qed.

Lemma renderable_primitive (v : value) : isPrimitive v = true -> renderable v = true.
Proof. destruct v; try discriminate; reflexivity. Qed.

Lemma forallb_false_Exists {A} (f : A -> bool) (l : list A) :
  forallb f l = false -> Exists (fun a => f a = false) l.
Proof.
  induction l as [|a l IH]; [discriminate|]. cbn.
  destruct (f a) eqn:E; [|intros _; now left]. cbn. intros H. right. now apply IH.
Qed.

Lemma getAttributeString_panics (v : value) :
  renderable v = false ->
  forall attrName, exists msg, getAttributeString attrName v = Panics msg.
Proof.
  induction v as [s|b|k n|l IHl|m IHm|t] using value_nested_ind;
    intros Hr attrName; try discriminate Hr.
  - rewrite getAttributeString_list.
    destruct l as [|v0 l]; [discriminate Hr|].
    cbn [renderable] in Hr. apply orb_false_elim in Hr as [Ep Hall].
    cbn [length Nat.ltb Nat.leb andb]. rewrite Ep.
    apply blocks_loop_bad.
    apply forallb_false_Exists in Hall.
    rewrite Exists_exists in Hall |- *.
    destruct Hall as (item & Hin & Hitem). exists item. split; [exact Hin|].
    destruct item as [| | | |mi|]; try exact I.
    rewrite Forall_forall in IHl.
    assert (renderable (VMap mi) = false) as Hmi by exact Hitem.
    destruct (IHl (VMap mi) Hin Hmi attrName) as [msg Hmsg].
    rewrite getAttributeString_map in Hmsg.
    destruct (0 <? length mi)%nat; [|discriminate Hmsg].
    rewrite obind_Returns in Hmsg. eauto.
  - rewrite getAttributeString_map.
    cbn [renderable] in Hr. apply forallb_false_Exists in Hr.
    assert ((0 <? length m)%nat = true) as ->
      by (destruct m; [inversion Hr|reflexivity]).
    rewrite obind_Returns. apply map_loop_bad.
    rewrite Exists_exists in Hr |- *.
    destruct Hr as (kv & Hin & Hkv). exists kv. split; [exact Hin|].
    rewrite Forall_forall in IHm. split.
    + destruct (isPrimitive (snd kv)) eqn:Ep; [|reflexivity].
      apply renderable_primitive in Ep. congruence.
    + exact (IHm kv Hin Hkv (fst kv)).
Qed.

(** X8. The value renderer returns on a value exactly when the value is
    renderable, that is, when every list it reaches that does not start
    with a primitive holds maps only; on any other value it panics. Lists
    that start with a primitive are never looked into. *)
Theorem X8_returns_iff_renderable (attrName : string) (v : value) :
  (renderable v = true <-> exists t, getAttributeString attrName v = Returns t)
  /\ (renderable v = false
      <-> exists msg, getAttributeString attrName v = Panics msg).
Proof.
  split; split.
  - intros H. now apply getAttributeString_returns.
  - intros [t Ht]. destruct (renderable v) eqn:E; [reflexivity|].
    destruct (getAttributeString_panics v E attrName) as [msg Hmsg]. congruence.
  - intros H. now apply getAttributeString_panics.
  - intros [msg Hmsg]. destruct (renderable v) eqn:E; [|reflexivity].
    destruct (getAttributeString_returns v E attrName) as [t Ht]. congruence.
Qed.

Lemma renderAll_renderable (l : list (string * value)) (s out : string) :
  renderAll l s = Returns out ->
  Forall (fun nv => renderable (snd nv) = true) l.
Proof.
  intros H. apply renderAll_returns in H as (texts & HF & _).
  induction HF as [|nv t l texts Ht _ IH]; constructor; [|exact IH].
  destruct (renderable (snd nv)) eqn:E; [reflexivity|].
  destruct (getAttributeString_panics _ E (fst nv)) as [msg Hmsg]. congruence.
Qed.

(** X9. A call of [GetResourceStateConfigString] returns exactly when every
    value it renders (the expanded state values and the defaults of the
    names that are not excluded) is renderable; otherwise it panics, with
    ["id"] already in the excludes. *)
Theorem X9_call_returns_iff (c : Caller) :
  ((exists result, GetResourceStateConfigString c
                   = (Returns result, with_id_excluded c))
   <-> Forall (fun nv => renderable (snd nv) = true) (renderedAttributes c))
  /\ ((exists msg, GetResourceStateConfigString c
                   = (Panics msg, with_id_excluded c))
      <-> Exists (fun nv => renderable (snd nv) = false) (renderedAttributes c)).
Proof.
  assert ((exists result, GetResourceStateConfigString c
                          = (Returns result, with_id_excluded c))
          <-> Forall (fun nv => renderable (snd nv) = true)
                     (renderedAttributes c)) as Hret.
  { rewrite GetResourceStateConfigString_run, resourceBlock_run. cbn [fst].
    split.
    - intros [result H].
      destruct (renderAll (renderedAttributes c) _) as [s|msg] eqn:E;
        [|discriminate H].
      now apply renderAll_renderable in E.
    - intros H.
      destruct (renderAll_total _ (header (c_state c) +:+ LF) H) as [s ->].
      cbn [obind]. eauto. }
  split; [exact Hret|].
  assert (forall l : list (string * value),
            Forall (fun nv => renderable (snd nv) = true) l
            \/ Exists (fun nv => renderable (snd nv) = false) l) as Hsplit.
  { induction l as [|nv l [IH|IH]]; [left; constructor| |right; now right].
    destruct (renderable (snd nv)) eqn:E; [left; now constructor|right; now left]. }
  assert (forall l : list (string * value),
            Forall (fun nv => renderable (snd nv) = true) l ->
            Exists (fun nv => renderable (snd nv) = false) l -> False) as Hexcl.
  { intros l HF HE. rewrite Forall_forall in HF. rewrite Exists_exists in HE.
    destruct HE as (nv & Hin & Hnv). rewrite (HF nv Hin) in Hnv. discriminate. }
  split.
  - intros [msg Hmsg].
    destruct (Hsplit (renderedAttributes c)) as [HF|HE]; [|exact HE].
    apply Hret in HF as [result Hres]. congruence.
  - intros HE. rewrite GetResourceStateConfigString_run.
    destruct (let! s := fst (resourceBlock c) in Returns (formatConfig s))
      as [result|msg] eqn:E; [|eauto].
    exfalso. apply (Hexcl (renderedAttributes c)); [|exact HE].
    apply Hret. exists result.
    now rewrite GetResourceStateConfigString_run, E.
Qed.


(* ================================================================== *)
(** ** Lines *)

Lemma all_plain_no_lf (s : string) :
  all_plain s = true -> mem "010"%char s = false.
Proof.
  induction s as [|c s IH]; [reflexivity|].
  cbn [all_plain mem]. intros [Hc Hs]%andb_prop. unfold plain in Hc.
  rewrite (Ascii.eqb_sym "010"%char c).
  destruct (Ascii.eqb c "010"%char).
  - rewrite !orb_true_r in Hc. discriminate Hc.
  - now apply IH.
Qed.

Lemma escape_no_lf (c : ascii) (s : string) :
  plain c = true -> all_plain s = true ->
  mem "010"%char (String "092" (String c s)) = false.
Proof.
  intros Hc Hs.
  change (mem "010"%char (String c s)
          = false).
  apply all_plain_no_lf. cbn [all_plain]. now rewrite Hc, Hs.
Qed.

Lemma appendEscapedRune_no_lf r : mem "010"%char (appendEscapedRune r) = false.
Proof.
  unfold appendEscapedRune.
  destruct ((r =? 0x22) || (r =? 0x5C)) eqn:E0.
  { assert (r = 0x22 \/ r = 0x5C) as [-> | ->] by lia; reflexivity. }
  destruct (IsPrint r) eqn:Ep.
  { apply all_plain_no_lf, AppendRune_plain; try lia.
    intros ->. unfold IsPrint in Ep. cbn in Ep. discriminate Ep. }
  repeat (match goal with
          | |- context [if ?b then _ else _] => destruct b; [reflexivity|]
          end).
  destruct ((r <? 32) || (r =? 127)).
  { unfold hex_escape. apply escape_no_lf; [reflexivity|].
    cbn [all_plain]. now rewrite !lowerhex_plain. }
  destruct (negb (utf8.ValidRune r));
    [apply escape_no_lf; [reflexivity|apply hex_digits_plain]|].
  destruct (r <? 65536); apply escape_no_lf;
    (reflexivity || apply hex_digits_plain).
Qed.

Lemma appendQuoted_no_lf fuel s : mem "010"%char (appendQuoted fuel s) = false.
Proof.
  revert s. induction fuel as [|fuel IH]; intros s; [reflexivity|].
  destruct s as [|c0 s']; [reflexivity|].
  cbn [appendQuoted].
  destruct (if byte_val c0 <? 128 then _ else _) as [r width].
  rewrite mem_app, IH, orb_false_r.
  destruct ((width =? 1)%nat && (r =? utf8.RuneError)).
  - unfold hex_escape. apply escape_no_lf; [reflexivity|].
    cbn [all_plain]. now rewrite !lowerhex_plain.
  - apply appendEscapedRune_no_lf.
Qed.

Lemma all_digits_no_lf (s : string) :
  all_digits s = true -> mem "010"%char s = false.
Proof.
  induction s as [|c s IH]; [reflexivity|].
  cbn [all_digits mem]. intros [Hc Hs]%andb_prop.
  destruct (Ascii.eqb_spec "010"%char c) as [<-|_]; [discriminate Hc|].
  now apply IH.
Qed.

Lemma fmt_d_no_lf (n : Z) : mem "010"%char (fmt_d n) = false.
Proof.
  unfold fmt_d. destruct (Z.to_int n) as [d|d];
    cbn [NilZero.string_of_int];
    destruct (string_of_uint_digits d) as [_ Hd].
  - now apply all_digits_no_lf.
  - cbn [mem]. cbn. now apply all_digits_no_lf.
Qed.

Lemma getPrimitiveValueString_no_lf (v : value) :
  mem "010"%char (getPrimitiveValueString v) = false.
Proof.
  destruct v as [s|b|k n|l|m|t]; cbn [getPrimitiveValueString];
    try reflexivity.
  - unfold strconv_Quote. rewrite !mem_app, appendQuoted_no_lf. reflexivity.
  - now destruct b.
  - apply fmt_d_no_lf.
Qed.

(** X13. The text of a primitive value holds no line feed, whatever the
    value (a string with line feeds in it included): a primitive attribute
    whose key holds no line feed is rendered as nothing or as exactly one
    line. *)
Theorem X13_one_line (k : string) (rawValue : value) :
  mem "010"%char (getPrimitiveValueString rawValue) = false
  /\ (mem "010"%char k = false ->
      getPrimitiveAttributeString k rawValue = EmptyString
      \/ exists line,
           getPrimitiveAttributeString k rawValue = line +:+ LF
           /\ mem "010"%char line = false).
Proof.
  split; [apply getPrimitiveValueString_no_lf|]. intros Hk.
  unfold getPrimitiveAttributeString.
  destruct (_ && _); [now left|]. right.
  exists (k +:+ " = " +:+ getPrimitiveValueString rawValue). split.
  - now rewrite !app_assoc.
  - rewrite !mem_app, Hk, getPrimitiveValueString_no_lf. reflexivity.
Qed.

(* ================================================================== *)
(** ** Identifiers and names *)

Lemma strings_Replace_all_absent s old new :
  mem old s = false -> strings_Replace_all s old new = s.
Proof.
  induction s as [|c s IH]; [reflexivity|]. cbn.
  rewrite (Ascii.eqb_sym old c).
  destruct (Ascii.eqb c old); [discriminate|]. intros H. now rewrite IH.
Qed.

(** X12. Sanitizing an identifier without a delimiter changes nothing, and
    sanitizing twice is sanitizing once; an identifier with a delimiter is
    changed, so it and its sanitized form are two identifiers with the same
    block label. *)
Theorem X12_sanitize_twice (id : string) :
  (mem "."%char id = false -> sanitizeResourceID id = id)
  /\ sanitizeResourceID (sanitizeResourceID id) = sanitizeResourceID id
  /\ (mem "."%char id = true ->
      sanitizeResourceID id <> id
      /\ sanitizeResourceID (sanitizeResourceID id) = sanitizeResourceID id).
Proof.
  assert (sanitizeResourceID (sanitizeResourceID id) = sanitizeResourceID id)
    as Hidem.
  { unfold sanitizeResourceID. apply strings_Replace_all_absent.
    now apply strings_Replace_all_mem. }
  split; [apply strings_Replace_all_absent|]. split; [exact Hidem|].
  intros Hm. split; [|exact Hidem]. intros Heq.
  assert (mem "."%char (sanitizeResourceID id) = false) as Hno
    by now apply strings_Replace_all_mem.
  rewrite Heq in Hno. congruence.
Qed.

Lemma topLevelName_shape (k : string) :
  mem "."%char (topLevelName k) = false
  /\ (k = topLevelName k
      \/ exists rest, k = topLevelName k +:+ "." +:+ rest).
Proof.
  unfold topLevelName, tfStateKeyDelimiter.
  destruct (strings_SplitN_2_no_sep k "."%char) as [[-> Hm]|(a & b & -> & Hm & ->)];
    cbn [hd].
  - split; [exact Hm|now left].
  - split; [exact Hm|]. right. now exists b.
Qed.

(** X1. The name table built from a flat attribute map holds exactly the
    first segments of its keys, each flagged [false], whatever the order in
    which the map is visited; a name holds no delimiter, and a key is its
    name alone or its name, a delimiter and the rest of the path. *)
Theorem X1_unique_attribute_names (attrMap : gmap string string) :
  (forall n b,
     getUniqueAttributeNames attrMap !! n = Some b
     <-> b = false
         /\ exists k, is_Some (attrMap !! k) /\ topLevelName k = n)
  /\ (forall k, is_Some (attrMap !! k) ->
        getUniqueAttributeNames attrMap !! topLevelName k = Some false
        /\ mem "."%char (topLevelName k) = false
        /\ (k = topLevelName k
            \/ exists rest, k = topLevelName k +:+ "." +:+ rest)).
Proof.
  split.
  - intros n b. rewrite getUniqueAttributeNames_lookup.
    destruct (decide (n ∈ stateNames attrMap)) as [Hin|Hnin].
    + apply elem_of_stateNames in Hin. split.
      * intros [= <-]. now split.
      * intros [-> _]. reflexivity.
    + split; [discriminate|]. intros [_ Hex]. destruct Hnin.
      now apply elem_of_stateNames.
  - intros k Hk. split; [|apply topLevelName_shape].
    rewrite getUniqueAttributeNames_lookup.
    rewrite decide_True; [reflexivity|].
    apply elem_of_stateNames. now exists k.
Qed.

Lemma omap_ext_in {A B} (f g : A -> option B) (l : list A) :
  (forall a, a ∈ l -> f a = g a) -> omap f l = omap g l.
Proof.
  induction l as [|a l IH]; intros H; [reflexivity|].
  cbn [omap list_omap]. rewrite (H a) by left.
  rewrite IH; [reflexivity|]. intros b Hb. apply H. now right.
Qed.

(** X10. The attributes a call renders are, in increasing order of name,
    the names of the state and of the defaults with the value the overlay
    gives them: an excluded name and [id] are left out; a name of the state
    takes its expanded state value, even when the defaults have the name
    too; any other name takes its default. *)
Theorem X10_overlay_resolution (c : Caller) :
  renderedAttributes c
  = omap (fun attrName => option_map (pair attrName) (overlayValue c attrName))
         (sort_Strings
            (elements (stateNames (Attributes (Primary (c_state c)))
                       ∪ dom (c_defaults c)))).
Proof.
  unfold renderedAttributes.
  rewrite sortedNames_canonical, attributeNames_dom.
  apply omap_ext_in. intros n Hn. f_equal.
  rewrite sort_Strings_perm, elem_of_elements, elem_of_union in Hn.
  unfold chosenValue, overlayValue.
  destruct (decide (n ∈ c_excludes c)) as [Hex|Hex].
  { rewrite decide_True; [reflexivity|now apply elem_of_union_r]. }
  destruct (decide (n = "id")) as [->|Hid].
  { rewrite decide_True; [reflexivity|].
    now apply elem_of_union_l, elem_of_singleton. }
  rewrite decide_False
    by (intros [Hi|He]%elem_of_union;
        [apply elem_of_singleton in Hi|]; contradiction).
  rewrite attributeNames_lookup.
  destruct (decide (n ∈ stateNames (Attributes (Primary (c_state c)))))
    as [Hst|Hst].
  - cbn [default]. now destruct (c_defaults c !! n).
  - destruct Hn as [Hn|Hn]; [contradiction|].
    rewrite decide_True by exact Hn.
    apply elem_of_dom in Hn as [v Hv]. rewrite Hv. reflexivity.
Qed.


(* ================================================================== *)
(** ** The renderers of [main.go] against those of the package *)

Lemma AttributeToString_map attrName m :
  AttributeToString attrName (VMap m)
  = if (0 <? length m)%nat
    then let! t := MapAttributeToString attrName m in Returns t
    else Returns EmptyString.
Proof. reflexivity. Qed.

Lemma IsPrimitive_agree (v : value) :
  no_narrow_ints v = true -> IsPrimitive v = isPrimitive v.
Proof. destruct v as [| |[]| | |]; try discriminate; reflexivity. Qed.

Lemma PrimitiveValueToString_agree (v : value) :
  no_narrow_ints v = true ->
  PrimitiveValueToString v = getPrimitiveValueString v.
Proof. destruct v as [| |[]| | |]; try discriminate; reflexivity. Qed.

Lemma PrimitiveAttributeToString_agree (k : string) (v : value) :
  no_narrow_ints v = true ->
  PrimitiveAttributeToString k v = getPrimitiveAttributeString k v.
Proof.
  intros H. unfold PrimitiveAttributeToString, getPrimitiveAttributeString.
  now rewrite PrimitiveValueToString_agree.
Qed.

Lemma PrimitiveAttributeListToString_agree attrName (l : list value) :
  forallb no_narrow_ints l = true ->
  PrimitiveAttributeListToString attrName l
  = getPrimitiveAttributeListString attrName l.
Proof.
  intros H.
  unfold PrimitiveAttributeListToString, getPrimitiveAttributeListString.
  rewrite (foldl_append_concat (fun v => PrimitiveValueToString v +:+ ",")).
  rewrite (foldl_append_concat (fun v => getPrimitiveValueString v +:+ ",")).
  do 3 f_equal. apply map_ext_in. intros v Hv.
  rewrite forallb_forall in H. now rewrite PrimitiveValueToString_agree by auto.
Qed.

Lemma blocks_loop_ext f g (l : list value) (s : string) :
  (forall m, In (VMap m) l -> f m = g m) ->
  blocks_loop f l s = blocks_loop g l s.
Proof.
  revert s. induction l as [|item l IH]; intros s H; [reflexivity|].
  unfold blocks_loop. cbn [for_range]. fold (blocks_loop f) (blocks_loop g).
  destruct item as [| | | |m|]; try reflexivity.
  rewrite (H m) by now left.
  destruct (g m); cbn [obind]; [|reflexivity].
  apply IH. intros m' Hm'. apply H. now right.
Qed.

Lemma map_loop_agree (old new : string -> value -> outcome string)
  (attrName : string) (m : list (string * value)) :
  Forall (fun kv => no_narrow_ints (snd kv) = true
                    /\ old (fst kv) (snd kv) = new (fst kv) (snd kv)) m ->
  mapAttributeToString old attrName m = mapAttributeString new attrName m.
Proof.
  intros Hm. unfold mapAttributeToString, mapAttributeString.
  generalize (attrName +:+ " {" +:+ LF) as s.
  induction Hm as [|[k v] m [Hv Hkv] _ IH]; intros s; [reflexivity|].
  cbn [for_range fst snd]. cbn [fst snd] in Hv, Hkv.
  rewrite (IsPrimitive_agree v Hv), (PrimitiveAttributeToString_agree k v Hv).
  rewrite Hkv.
  destruct (isPrimitive v); cbn [obind]; [apply IH|].
  destruct (new k v); cbn [obind]; [apply IH|reflexivity].
Qed.

Lemma renderers_agree (v : value) :
  no_narrow_ints v = true ->
  (forall attrName, AttributeToString attrName v = getAttributeString attrName v)
  /\ (forall m, v = VMap m ->
        forall attrName,
          MapAttributeToString attrName m = getMapAttributeString attrName m).
Proof.
  induction v as [s|b|k n|l IHl|m IHm|t] using value_nested_ind; intros Hn.
  - split; [|discriminate]. intros a. cbn.
    now rewrite (PrimitiveAttributeToString_agree a (VString s)).
  - split; [|discriminate]. intros a. cbn.
    now rewrite (PrimitiveAttributeToString_agree a (VBool b)).
  - split; [|discriminate]. intros a. cbn.
    now rewrite (PrimitiveAttributeToString_agree a (VInt k n) Hn).
  - split; [|discriminate]. intros a.
    rewrite AttributeToString_list, getAttributeString_list.
    cbn [no_narrow_ints] in Hn.
    rewrite (PrimitiveAttributeListToString_agree a l Hn).
    assert (match l with v0 :: _ => IsPrimitive v0 | [] => false end
            = match l with v0 :: _ => isPrimitive v0 | [] => false end) as ->.
    { destruct l as [|v0 l']; [reflexivity|].
      cbn [forallb] in Hn. apply andb_prop in Hn as [Hv0 _].
      now apply IsPrimitive_agree. }
    destruct (_ && _); [reflexivity|].
    apply blocks_loop_ext. intros m Hin.
    rewrite forallb_forall in Hn. rewrite Forall_forall in IHl.
    apply (IHl (VMap m)); [now apply list_elem_of_In|now apply Hn|reflexivity].
  - assert (forall a, MapAttributeToString a m = getMapAttributeString a m)
      as Hmap.
    { intros a. apply map_loop_agree.
      cbn [no_narrow_ints] in Hn. rewrite forallb_forall in Hn.
      rewrite Forall_forall in IHm |- *. intros kv Hin.
      assert (no_narrow_ints (snd kv) = true) as Hkv
        by now apply Hn, list_elem_of_In.
      split; [exact Hkv|]. now apply (IHm kv Hin Hkv). }
    split.
    + intros a. rewrite AttributeToString_map, getAttributeString_map.
      now rewrite Hmap.
    + intros m' [= <-]. exact Hmap.
  - split; [|discriminate]. intros a. reflexivity.
Qed.

(** X14. On a value that holds no [int8] and no [int16], the value renderer
    of [main.go] and the one of the package do the same: they return the
    same text or both panic; so do the two map renderers and the two
    primitive renderers. *)
Theorem X14_value_renderers_agree (attrName : string) (v : value) :
  no_narrow_ints v = true ->
  AttributeToString attrName v = getAttributeString attrName v
  /\ IsPrimitive v = isPrimitive v
  /\ PrimitiveValueToString v = getPrimitiveValueString v
  /\ (forall m, v = VMap m ->
        MapAttributeToString attrName m = getMapAttributeString attrName m).
Proof.
  intros Hn. destruct (renderers_agree v Hn) as [Ha Hm].
  split; [apply Ha|]. split; [now apply IsPrimitive_agree|].
  split; [now apply PrimitiveValueToString_agree|].
  intros m Hv. now apply Hm.
Qed.

(** X2. The renderer of [main.go] does not know [int8] and [int16]: it
    prints such a value as [unknown], and panics on a list that starts with
    one, where the package prints the number and the list of numbers. *)
Theorem X2_narrow_integers (attrName : string) (k : int_kind) (n : Z)
  (rest : list value) :
  k = KInt8 \/ k = KInt16 ->
  PrimitiveValueToString (VInt k n) = "unknown"
  /\ getPrimitiveValueString (VInt k n) = fmt_d n
  /\ AttributeToString attrName (VInt k n)
     = Returns (attrName +:+ " = unknown" +:+ LF)
  /\ getAttributeString attrName (VInt k n)
     = Returns (attrName +:+ " = " +:+ fmt_d n +:+ LF)
  /\ AttributeToString attrName (VList (VInt k n :: rest))
     = Panics conversion_panic
  /\ exists t, getAttributeString attrName (VList (VInt k n :: rest))
               = Returns t.
Proof.
  intros Hk.
  assert (getPrimitiveAttributeString attrName (VInt k n)
          = attrName +:+ " = " +:+ fmt_d n +:+ LF) as Hnew.
  { unfold getPrimitiveAttributeString. cbn [getPrimitiveValueString].
    destruct (String.eqb_spec (fmt_d n) (DQ +:+ DQ)) as [E|_];
      [|now rewrite andb_false_r].
    pose proof (fmt_d_is_decimal n) as Hd. rewrite E in Hd. discriminate Hd. }
  assert (PrimitiveAttributeToString attrName (VInt k n)
          = attrName +:+ " = unknown" +:+ LF) as Hold.
  { unfold PrimitiveAttributeToString.
    assert (PrimitiveValueToString (VInt k n) = "unknown") as ->
      by (destruct Hk as [-> | ->]; reflexivity).
    now rewrite andb_false_r. }
  repeat split.
  - destruct Hk as [-> | ->]; reflexivity.
  - destruct Hk as [-> | ->]; cbn; now rewrite Hold.
  - cbn. now rewrite Hnew.
  - rewrite AttributeToString_list. destruct Hk as [-> | ->]; reflexivity.
  - rewrite getAttributeString_list. cbn. eauto.
Qed.

Lemma attributeToConfig_run attrs attrNames s attrName (c : Caller) :
  attributeToConfig attrs attrNames s attrName c
  = (match chosenValue attrs attrNames (c_defaults c) (c_excludes c) attrName with
     | None => Returns s
     | Some v => let! t := AttributeToString attrName v in Returns (s +:+ t)
     end, c).
Proof.
  unfold attributeToConfig, chosenValue, bind, load_excludes, load_defaults,
    lift, ret.
  destruct (decide (attrName ∈ c_excludes c)); [reflexivity|].
  destruct (c_defaults c !! attrName) as [dv|];
    destruct (default false (attrNames !! attrName)); cbn;
    match goal with
    | |- context [AttributeToString ?n ?v] =>
        destruct (AttributeToString n v); reflexivity
    end.
Qed.

Lemma config_loops_agree attrs attrNames names s (c : Caller) :
  (forall n v, In n names ->
     chosenValue attrs attrNames (c_defaults c) (c_excludes c) n = Some v ->
     no_narrow_ints v = true) ->
  for_range_run (attributeToConfig attrs attrNames) names s c
  = for_range_run (renderAttribute attrs attrNames) names s c.
Proof.
  revert s. induction names as [|n names IH]; intros s H; [reflexivity|].
  cbn [for_range_run]. unfold bind.
  rewrite attributeToConfig_run, renderAttribute_run.
  assert (forall n' v, In n' names ->
            chosenValue attrs attrNames (c_defaults c) (c_excludes c) n' = Some v ->
            no_narrow_ints v = true) as H'
    by (intros n' v Hin; apply H; now right).
  destruct (chosenValue attrs attrNames (c_defaults c) (c_excludes c) n)
    as [v|] eqn:E.
  - destruct (renderers_agree v (H n v (or_introl eq_refl) E)) as [-> _].
    destruct (getAttributeString n v); cbn [obind]; [now apply IH|reflexivity].
  - now apply IH.
Qed.

Lemma appendDependencies_getDependsString (s : string) (deps : list string) :
  appendDependencies s deps = s +:+ getDependsString deps.
Proof.
  unfold appendDependencies, getDependsString.
  destruct (0 <? length deps)%nat; [|now rewrite app_nil_r].
  rewrite (foldl_append_concat (fun v => PrimitiveValueToString (VString v))).
  rewrite (foldl_append_concat (fun v => getPrimitiveValueString (VString v))).
  now rewrite !app_assoc.
Qed.

(** X15. [ResourceStateToConfigString] of [main.go] and
    [GetResourceStateConfigString] of the package give the same result and
    leave the caller's objects in the same state on every input whose
    rendered values hold no [int8] and no [int16]. *)
Theorem X15_config_renderers_agree (c : Caller) :
  Forall (fun nv => no_narrow_ints (snd nv) = true) (renderedAttributes c) ->
  ResourceStateToConfigString c = GetResourceStateConfigString c.
Proof.
  intros Hn.
  unfold ResourceStateToConfigString, GetResourceStateConfigString,
    resourceBlock, bind, load_state, load_defaults, store_exclude, ret.
  fold (with_id_excluded c).
  change (uniqueAttributeNames (Attributes (Primary (c_state c))))
    with (getUniqueAttributeNames (Attributes (Primary (c_state c)))).
  rewrite config_loops_agree.
  - destruct (for_range_run _ _ _ _) as [[s|msg] c1]; [|reflexivity].
    now rewrite appendDependencies_getDependsString.
  - intros n v Hin Hv. rewrite Forall_forall in Hn.
    apply (Hn (n, v)). unfold renderedAttributes.
    apply list_elem_of_omap. exists n. split; [now apply list_elem_of_In|].
    change (c_defaults (with_id_excluded c)) with (c_defaults c) in Hv.
    change (c_excludes (with_id_excluded c)) with ({[ "id" ]} ∪ c_excludes c)
      in Hv.
    unfold attributeNames. now rewrite Hv.
Qed.


Lemma go_range_empty (V : Type) : go_range V ∅ = [].
Proof.
  apply Permutation_nil_r. rewrite go_range_visits. now rewrite map_to_list_empty.
Qed.

Lemma plain_loop_run attrs attrNames names s (c : Caller) :
  c_defaults c = ∅ ->
  (forall n, In n names -> n ∉ c_excludes c) ->
  for_range_run (attributeToConfig attrs attrNames) names s c
  = (for_range (fun s attrName =>
                  let attrRawVal := flatmap_Expand attrs attrName in
                  let! t := AttributeToString attrName attrRawVal in
                  Returns (s +:+ t))
               names s, c).
Proof.
  intros Hd. revert s. induction names as [|n names IH]; intros s H;
    [reflexivity|].
  cbn [for_range_run for_range]. unfold bind.
  rewrite attributeToConfig_run. unfold chosenValue.
  rewrite decide_False by (apply H; now left).
  rewrite Hd, lookup_empty.
  destruct (AttributeToString n (flatmap_Expand attrs n)); cbn [obind];
    [|reflexivity].
  apply IH. intros n' Hn'. apply H. now right.
Qed.

(** X16. On a resource whose identifier holds no delimiter and whose state
    has no attribute named [id], [ResourceAsString] returns what
    [ResourceStateToConfigString] returns for the resource with no defaults
    and no excludes. *)
Theorem X16_resource_as_string (state : ResourceState) :
  mem "."%char (ID (Primary state)) = false ->
  "id" ∉ stateNames (Attributes (Primary state)) ->
  ResourceAsString state
  = fst (ResourceStateToConfigString
           {| c_state := state; c_defaults := ∅; c_excludes := ∅ |}).
Proof.
  intros Hid Hno.
  unfold ResourceAsString, resourceAsText, ResourceStateToConfigString, bind,
    load_state, load_defaults, store_exclude, ret.
  cbn [c_state c_defaults c_excludes].
  unfold addDefaultNames. rewrite go_range_empty. cbn [foldl].
  unfold sanitizeResourceID.
  rewrite (strings_Replace_all_absent _ _ _ Hid).
  rewrite plain_loop_run.
  - destruct (for_range _ _ _) as [s|msg]; reflexivity.
  - reflexivity.
  - intros n Hin. cbn [c_excludes].
    apply list_elem_of_In, sortedNames_elem_of in Hin.
    apply elem_of_dom in Hin as [b Hb].
    change (uniqueAttributeNames (Attributes (Primary state)))
      with (getUniqueAttributeNames (Attributes (Primary state))) in Hb.
    rewrite getUniqueAttributeNames_lookup in Hb.
    destruct (decide (n ∈ stateNames (Attributes (Primary state))))
      as [Hst|]; [|discriminate Hb].
    intros [Hi|He]%elem_of_union.
    + apply elem_of_singleton in Hi. now subst.
    + now apply not_elem_of_empty in He.
Qed.


(* ================================================================== *)
(** ** What the order of visit of a map can change *)

Lemma concat_length_perm (l l' : list string) :
  l ≡ₚ l' -> String.length (concat l) = String.length (concat l').
Proof.
  induction 1 as [|t l l' _ IH|t u l|l1 l2 l3 _ IH1 _ IH2].
  - reflexivity.
  - change (concat (t :: ?k)) with (t +:+ concat k).
    now rewrite !app_length, IH.
  - change (concat (?a :: ?b :: l)) with (a +:+ b +:+ concat l).
    rewrite !app_length. lia.
  - congruence.
Qed.

(** X17. Visiting the entries of a map in another order changes the text of
    its block only by the order of the entry renderings: when the map
    renderer returns for one order it returns for every order, with the same
    opener and closing brace around a rearrangement of the same entry
    texts, so with a text of the same length. *)
Theorem X17_map_order_rearranges (attrName : string)
  (m m' : list (string * value)) (out : string) :
  m ≡ₚ m' ->
  getMapAttributeString attrName m = Returns out ->
  exists texts texts',
    texts ≡ₚ texts'
    /\ Forall2 (fun kv t => getAttributeString (fst kv) (snd kv) = Returns t)
               m texts
    /\ Forall2 (fun kv t => getAttributeString (fst kv) (snd kv) = Returns t)
               m' texts'
    /\ out = attrName +:+ " {" +:+ LF +:+ concat texts +:+ "}" +:+ LF
    /\ getMapAttributeString attrName m'
       = Returns (attrName +:+ " {" +:+ LF +:+ concat texts' +:+ "}" +:+ LF)
    /\ String.length (attrName +:+ " {" +:+ LF +:+ concat texts' +:+ "}" +:+ LF)
       = String.length out.
Proof.
  intros Hp Hout.
  rewrite getMapAttributeString_renderAll in Hout.
  destruct (renderAll m _) as [s|msg] eqn:E; [|discriminate Hout].
  cbn [obind] in Hout. injection Hout as <-.
  apply renderAll_returns in E as (texts & HF & ->).
  destruct (@Permutation_Forall2 _ _ _ m m' texts Hp HF) as (texts' & Hp' & HF').
  exists texts, texts'. split; [exact Hp'|]. split; [exact HF|].
  split; [exact HF'|]. split; [now rewrite !app_assoc|]. split.
  - rewrite getMapAttributeString_renderAll.
    assert (renderAll m' (attrName +:+ " {" +:+ LF)
            = Returns ((attrName +:+ " {" +:+ LF) +:+ concat texts')) as ->
      by (apply renderAll_returns; now exists texts').
    cbn [obind]. now rewrite !app_assoc.
  - rewrite !app_length, (concat_length_perm texts texts' Hp'). lia.
Qed.

End Renderer.

Import GoString.

(* ================================================================== *)
(** ** Runs under two visiting orders *)

Lemma range_stored_valid : range_valid range_stored.
Proof. intros V m. reflexivity. Qed.

Lemma range_backwards_valid : range_valid range_backwards.
Proof. intros V m. unfold range_backwards. symmetry. apply Permutation_rev. Qed.

Lemma attributeNames_order_free
  (range1 range2 : forall V : Type, gmap string V -> list (string * V))
  (c : Caller) :
  range_valid range1 -> range_valid range2 ->
  attributeNames range1 c = attributeNames range2 c.
Proof.
  intros H1 H2. apply map_eq. intros n.
  now rewrite (attributeNames_lookup range1 H1), (attributeNames_lookup range2 H2).
Qed.

Lemma renderedAttributes_order_free
  (range1 range2 : forall V : Type, gmap string V -> list (string * V))
  (flatmap_Expand : gmap string string -> string -> value) (c : Caller) :
  range_valid range1 -> range_valid range2 ->
  renderedAttributes range1 flatmap_Expand c
  = renderedAttributes range2 flatmap_Expand c.
Proof.
  intros H1 H2. unfold renderedAttributes.
  rewrite (attributeNames_order_free range1 range2 c H1 H2).
  now rewrite (sortedNames_canonical range1 H1),
              (sortedNames_canonical range2 H2).
Qed.

(** C5. The names of the attributes a call renders are in strictly
    increasing byte-wise order; they are the state names and the default
    names that are not excluded; and they, the values rendered for them and
    the result of the call are the same under any two orders in which the
    [range] statements may visit the maps of the call. What the call returns
    is the formatter's output on a text that holds the renderings of these
    attributes in that order. *)
Theorem C5_names_in_lexicographic_order
  (unicode_IsPrint : Z -> bool)
  (range1 range2 : forall V : Type, gmap string V -> list (string * V))
  (flatmap_Expand : gmap string string -> string -> value)
  (printer_Format : string -> string + string) (c : Caller) :
  range_valid range1 -> range_valid range2 ->
  StronglySorted (fun a b => String.ltb a b = true)
                 (map fst (renderedAttributes range1 flatmap_Expand c))
  /\ (forall n,
        n ∈ map fst (renderedAttributes range1 flatmap_Expand c)
        <-> (n ∈ stateNames (Attributes (Primary (c_state c)))
                  ∪ dom (c_defaults c))
            /\ (n ∉ c_excludes c) /\ n <> "id")
  /\ renderedAttributes range1 flatmap_Expand c
     = renderedAttributes range2 flatmap_Expand c
  /\ GetResourceStateConfigString unicode_IsPrint range1 flatmap_Expand
       printer_Format c
     = GetResourceStateConfigString unicode_IsPrint range2 flatmap_Expand
         printer_Format c
  /\ (forall result c',
        GetResourceStateConfigString unicode_IsPrint range1 flatmap_Expand
          printer_Format c = (Returns result, c') ->
        exists out texts,
          result = formatConfig printer_Format out
          /\ Forall2 (fun nv t =>
                        getAttributeString unicode_IsPrint (fst nv) (snd nv)
                        = Returns t)
                     (renderedAttributes range1 flatmap_Expand c) texts
          /\ out = header (c_state c) +:+ LF +:+ concat texts
                   +:+ getDependsString unicode_IsPrint
                         (Dependencies (c_state c))
                   +:+ "}" +:+ LF).
Proof.
  intros H1 H2. split; [|split; [|split; [|split]]].
  - rewrite renderedAttributes_names. apply StronglySorted_filter_list.
    now apply sortedNames_strict.
  - intros n. rewrite renderedAttributes_names.
    rewrite list_elem_of_In, filter_In, <- list_elem_of_In.
    rewrite (sortedNames_elem_of range1 H1).
    rewrite (attributeNames_dom range1 H1), bool_decide_eq_true.
    rewrite not_elem_of_union, not_elem_of_singleton. tauto.
  - now apply renderedAttributes_order_free.
  - rewrite !GetResourceStateConfigString_run, !resourceBlock_run.
    now rewrite (renderedAttributes_order_free range1 range2 _ c H1 H2).
  - intros result c' Hcall.
    apply GetResourceStateConfigString_inv in Hcall as (out & Hrun & ->).
    apply resourceBlock_text in Hrun as (texts & HF & ->).
    eexists. exists texts. split; [reflexivity|]. split; [exact HF|reflexivity].
Qed.

(* ================================================================== *)
(** ** A formatter failure *)

(** C6. When the formatter fails on the text of a call, the call returns the
    empty string: the error does not reach the caller, who sees what a
    formatter returning the empty text would have produced. *)
Theorem C6_formatter_failure_returns_empty
  (unicode_IsPrint : Z -> bool)
  (go_range : forall V : Type, gmap string V -> list (string * V))
  (flatmap_Expand : gmap string string -> string -> value)
  (printer_Format : string -> string + string)
  (c : Caller) (s : string) (c' : Caller) (err : string) :
  resourceBlock unicode_IsPrint go_range flatmap_Expand c = (Returns s, c') ->
  printer_Format s = inr err ->
  GetResourceStateConfigString unicode_IsPrint go_range flatmap_Expand
    printer_Format c
  = (Returns EmptyString, c')
  /\ GetResourceStateConfigString unicode_IsPrint go_range flatmap_Expand
       printer_Format c
     = GetResourceStateConfigString unicode_IsPrint go_range flatmap_Expand
         (fun _ => inl EmptyString) c.
Proof.
  intros Hrun Hfmt. unfold GetResourceStateConfigString, bind, ret.
  rewrite Hrun. unfold formatConfig. now rewrite Hfmt.
Qed.

(* ================================================================== *)
(** ** The order of a nested map reaches the output *)

(** C2. The two listings of the tags stand for the same Go map, and the
    renderer gives different texts for them: the text of a call depends on
    the order in which its [range] statement visits a nested map of two
    entries, and two calls on the same inputs can return different
    strings. *)
Theorem C2_map_entry_order_reaches_output :
  same_value tags_ab tags_ba
  /\ fst (resourceBlock no_wide_printables range_stored expand_flat
            (tagged_caller tags_ab))
     = Returns ("resource " +:+ DQ +:+ "widget" +:+ DQ +:+ " " +:+ DQ +:+ "w1"
                +:+ DQ +:+ " {" +:+ LF
                +:+ "tags {" +:+ LF
                +:+ "a = " +:+ DQ +:+ "a" +:+ DQ +:+ LF
                +:+ "b = " +:+ DQ +:+ "b" +:+ DQ +:+ LF
                +:+ "}" +:+ LF +:+ "}" +:+ LF)
  /\ fst (resourceBlock no_wide_printables range_stored expand_flat
            (tagged_caller tags_ba))
     = Returns ("resource " +:+ DQ +:+ "widget" +:+ DQ +:+ " " +:+ DQ +:+ "w1"
                +:+ DQ +:+ " {" +:+ LF
                +:+ "tags {" +:+ LF
                +:+ "b = " +:+ DQ +:+ "b" +:+ DQ +:+ LF
                +:+ "a = " +:+ DQ +:+ "a" +:+ DQ +:+ LF
                +:+ "}" +:+ LF +:+ "}" +:+ LF)
  /\ fst (GetResourceStateConfigString no_wide_printables range_stored
            expand_flat format_verbatim (tagged_caller tags_ab))
     <> fst (GetResourceStateConfigString no_wide_printables range_stored
               expand_flat format_verbatim (tagged_caller tags_ba)).
Proof.
  split; [|split; [|split]].
  - unfold tags_ab, tags_ba.
    apply (same_map _ [("a", VString "a"); ("b", VString "b")]).
    + repeat constructor.
    + apply perm_swap.
  - vm_compute. reflexivity.
  - vm_compute. reflexivity.
  - vm_compute. discriminate.
Qed.

(* ================================================================== *)
(** ** Runs on the reference inputs *)

Lemma C1_counterexample :
  getAttributeString no_wide_printables "ports" (VList [])
  <> Returns ("ports = [" +:+ LF +:+ "]" +:+ LF)
  /\ getAttributeString no_wide_printables "tags" (VMap [])
     <> Returns ("tags {" +:+ LF +:+ "}" +:+ LF)
  /\ expand_flat (Attributes (Primary (c_state empties_caller))) "ports"
     = VList []
  /\ expand_flat (Attributes (Primary (c_state empties_caller))) "tags"
     = VMap []
  /\ fst (resourceBlock no_wide_printables range_stored expand_flat
            empties_caller)
     = Returns ("resource " +:+ DQ +:+ "widget" +:+ DQ +:+ " " +:+ DQ
                +:+ "a_b_c" +:+ DQ +:+ " {" +:+ LF
                +:+ "name = " +:+ DQ +:+ "n" +:+ DQ +:+ LF
                +:+ "}" +:+ LF).
Proof.
  repeat split; vm_compute; try discriminate; reflexivity.
Qed.

Lemma C1_witness :
  renderAttribute no_wide_printables expand_flat
    (Attributes (Primary (c_state empties_caller))) {[ "tags" := false ]}
    "resource" "tags" empties_caller
  = (Returns "resource", empties_caller).
Proof.
  destruct (C1_empty_values_render_nothing no_wide_printables expand_flat "tags")
    as (_ & _ & H & _).
  apply H.
  - apply not_elem_of_empty.
  - vm_compute. reflexivity.
  - right. vm_compute. reflexivity.
Defined.

Lemma C3_witness :
  ("owner" ∉ map fst (renderedAttributes range_stored expand_flat overlay_caller))
  /\ ("id" ∉ map fst (renderedAttributes range_stored expand_flat overlay_caller)).
Proof.
  split.
  - apply (C3_excluded_names_absent no_wide_printables range_stored expand_flat
             format_verbatim overlay_caller "owner").
    left. apply (bool_decide_unpack _). vm_compute. exact I.
  - apply (C3_excluded_names_absent no_wide_printables range_stored expand_flat
             format_verbatim overlay_caller "id").
    right. reflexivity.
Defined.

Lemma C4_witness :
  exists result,
    fst (GetResourceStateConfigString no_wide_printables range_stored
           expand_flat format_verbatim overlay_caller)
    = Returns result
    /\ contains ("region = " +:+ DQ +:+ "us-east-1" +:+ DQ) result.
Proof.
  destruct (GetResourceStateConfigString no_wide_printables range_stored
              expand_flat format_verbatim overlay_caller)
    as [o c'] eqn:Hcall.
  assert (exists result, o = Returns result) as [result ->].
  { apply (f_equal fst) in Hcall. vm_compute in Hcall. subst o. eauto. }
  exists result. split; [reflexivity|].
  destruct (C4_default_only_attribute no_wide_printables range_stored
              expand_flat format_verbatim range_stored_valid overlay_caller
              "region" (VString "us-east-1")) as (_ & _ & H).
  - apply (bool_decide_unpack _). vm_compute. exact I.
  - vm_compute. reflexivity.
  - apply (bool_decide_unpack _). vm_compute. exact I.
  - discriminate.
  - destruct (H eq_refl eq_refl result c' Hcall) as (out & -> & Hc).
    exact Hc.
Defined.

Lemma C5_witness :
  renderedAttributes range_stored expand_flat overlay_caller
  = renderedAttributes range_backwards expand_flat overlay_caller.
Proof.
  destruct (C5_names_in_lexicographic_order no_wide_printables range_stored
              range_backwards expand_flat format_verbatim overlay_caller)
    as (_ & _ & H & _).
  - intros V m. reflexivity.
  - intros V m. unfold range_backwards. symmetry. apply Permutation_rev.
  - exact H.
Defined.

Lemma C6_witness :
  fst (GetResourceStateConfigString no_wide_printables range_stored expand_flat
         format_rejecting overlay_caller)
  = Returns EmptyString.
Proof.
  destruct (resourceBlock no_wide_printables range_stored expand_flat
              overlay_caller) as [o c'] eqn:Hrun.
  assert (exists out, o = Returns out) as [out ->].
  { apply (f_equal fst) in Hrun. vm_compute in Hrun. subst o. eauto. }
  destruct (C6_formatter_failure_returns_empty no_wide_printables range_stored
              expand_flat format_rejecting overlay_caller out c'
              "illegal char" Hrun eq_refl) as [H _].
  rewrite H. reflexivity.
Defined.

Lemma C7_witness :
  exists result,
    fst (GetResourceStateConfigString no_wide_printables range_stored
           expand_flat format_verbatim empties_caller)
    = Returns result
    /\ starts_with ("resource " +:+ DQ +:+ "widget" +:+ DQ +:+ " "
                    +:+ DQ +:+ "a_b_c" +:+ DQ +:+ " {") result.
Proof.
  destruct (GetResourceStateConfigString no_wide_printables range_stored
              expand_flat format_verbatim empties_caller)
    as [o c'] eqn:Hcall.
  assert (exists result, o = Returns result) as [result ->].
  { apply (f_equal fst) in Hcall. vm_compute in Hcall. subst o. eauto. }
  exists result. split; [reflexivity|].
  destruct (C7_header no_wide_printables range_stored expand_flat
              format_verbatim) as (_ & _ & H).
  destruct (H empties_caller result c' eq_refl eq_refl Hcall)
    as (out & -> & Hst).
  exact Hst.
Defined.

Lemma C10_witness :
  getAttributeString no_wide_printables "rule"
    (VList [VMap [("port", VInt KInt 80)]; VString "any"])
  = Panics conversion_panic
  /\ AttributeToString no_wide_printables "rule"
       (VList [VMap [("port", VInt KInt 80)]; VString "any"])
     = Panics conversion_panic.
Proof.
  destruct (C10_list_elements_asserted_as_maps no_wide_printables "rule"
              (VMap [("port", VInt KInt 80)]) [VString "any"] eq_refl)
    as (_ & _ & H1 & _ & H2).
  split.
  - eapply H1; [reflexivity|vm_compute; reflexivity|reflexivity|reflexivity].
  - eapply H2; [reflexivity|vm_compute; reflexivity|reflexivity|reflexivity].
Defined.

Lemma C8_witness :
  strconv_Quote no_wide_printables "us-east-1"
  = DQ +:+ concat (map (fun c => appendEscapedRune no_wide_printables
                                   (byte_val c))
                       (list_ascii_of_string "us-east-1")) +:+ DQ.
Proof.
  destruct (C8_primitive_values no_wide_printables) as (_ & H & _).
  apply H. reflexivity.
Defined.

(* ================================================================== *)
(** ** The unit tests of the package, run on the embedding *)

Example TestSanitizeResourceIDWithPeriods :
  sanitizeResourceID "my.test.resource.name" = "my_test_resource_name".
Proof. reflexivity. Qed.

Example TestGetUniqueAttributeNamesWithDupes :
  dom (getUniqueAttributeNames range_stored
         {[ "name" := "test"; "environment.#" := "1";
            "environment.0.variables.%" := "1";
            "environment.0.variables.a" := "value" ]})
  = {[ "name"; "environment" ]}.
Proof. vm_compute. reflexivity. Qed.

Example TestIsPrimitive :
  isPrimitive (VString "mystring") = true
  /\ isPrimitive (VBool true) = true
  /\ map isPrimitive [VInt KInt 1; VInt KInt8 8; VInt KInt16 16;
                      VInt KInt32 32; VInt KInt64 64]
     = [true; true; true; true; true]
  /\ map isPrimitive [VOther "map[string]string"; VOther "[]string";
                      VOther "[]uint8"; VOther "struct {}"]
     = [false; false; false; false].
Proof. repeat split. Qed.

Example TestGetPrimitiveValueStringWithNonPrimitive :
  map (getPrimitiveValueString no_wide_printables)
      [VOther "map[string]string"; VOther "[]string"; VOther "struct {}"]
  = ["unknown"; "unknown"; "unknown"].
Proof. reflexivity. Qed.

Example TestGetDependsString :
  getDependsString no_wide_printables [] = EmptyString
  /\ getDependsString no_wide_printables ["mydependency"]
     = "depends_on = [" +:+ LF +:+ DQ +:+ "mydependency" +:+ DQ +:+ "]" +:+ LF.
Proof. split; vm_compute; reflexivity. Qed.

Example TestGetPrimitiveAttributeString :
  getPrimitiveAttributeString no_wide_printables "mykey" (VString "myvalue")
  = "mykey = " +:+ DQ +:+ "myvalue" +:+ DQ +:+ LF
  /\ getPrimitiveAttributeString no_wide_printables "mykey" (VBool false)
     = "mykey = " +:+ DQ +:+ "false" +:+ DQ +:+ LF
  /\ getPrimitiveAttributeString no_wide_printables "mykey" (VInt KInt16 16)
     = "mykey = 16" +:+ LF
  /\ getPrimitiveAttributeString no_wide_printables "date" (VString EmptyString)
     = EmptyString.
Proof. repeat split; vm_compute; reflexivity. Qed.

Example TestGetPrimitiveAttributeListString :
  getPrimitiveAttributeListString no_wide_printables "security_groups"
    [VString "sg-xxxxxxxx"; VString "sg-xxxxxxxx"]
  = "security_groups = [" +:+ LF +:+ DQ +:+ "sg-xxxxxxxx" +:+ DQ +:+ ","
    +:+ DQ +:+ "sg-xxxxxxxx" +:+ DQ +:+ ",]" +:+ LF.
Proof. vm_compute. reflexivity. Qed.

(** The test of the map renderer accepts either order of the two entries;
    each order of visit gives one of the two texts. *)
Example TestGetMapAttributeString :
  getMapAttributeString no_wide_printables "tags"
    [("a", VString "a"); ("b", VString "b")]
  = Returns ("tags {" +:+ LF +:+ "a = " +:+ DQ +:+ "a" +:+ DQ +:+ LF
             +:+ "b = " +:+ DQ +:+ "b" +:+ DQ +:+ LF +:+ "}" +:+ LF)
  /\ getMapAttributeString no_wide_printables "tags"
       [("b", VString "b"); ("a", VString "a")]
     = Returns ("tags {" +:+ LF +:+ "b = " +:+ DQ +:+ "b" +:+ DQ +:+ LF
                +:+ "a = " +:+ DQ +:+ "a" +:+ DQ +:+ LF +:+ "}" +:+ LF).
Proof. split; vm_compute; reflexivity. Qed.

Example TestGetAttributeString :
  getAttributeString no_wide_printables "name" (VString "myname")
  = Returns ("name = " +:+ DQ +:+ "myname" +:+ DQ +:+ LF)
  /\ getAttributeString no_wide_printables "names"
       (VList [VString "a"; VString "b"])
     = Returns ("names = [" +:+ LF +:+ DQ +:+ "a" +:+ DQ +:+ "," +:+ DQ
                +:+ "b" +:+ DQ +:+ ",]" +:+ LF).
Proof. split; vm_compute; reflexivity. Qed.

(** The text the test of the whole renderer hands to the formatter, and the
    state of the excludes after the call. *)
Example TestGetResourceStateConfigString :
  resourceBlock no_wide_printables range_stored expand_flat
    {| c_state := resource_of "resource_type" "my.resource"
                    {[ "name" := "myname"; "myexcludekey" := "myexcludeval" ]}
                    ["mydep"];
       c_defaults := ∅;
       c_excludes := {[ "myexcludekey" ]} |}
  = (Returns ("resource " +:+ DQ +:+ "resource_type" +:+ DQ +:+ " " +:+ DQ
              +:+ "my_resource" +:+ DQ +:+ " {" +:+ LF
              +:+ "name = " +:+ DQ +:+ "myname" +:+ DQ +:+ LF
              +:+ "depends_on = [" +:+ LF +:+ DQ +:+ "mydep" +:+ DQ +:+ "]"
              +:+ LF +:+ "}" +:+ LF),
     {| c_state := resource_of "resource_type" "my.resource"
                    {[ "name" := "myname"; "myexcludekey" := "myexcludeval" ]}
                    ["mydep"];
        c_defaults := ∅;
        c_excludes := {[ "id"; "myexcludekey" ]} |}).
Proof. vm_compute. reflexivity. Qed.

(* ================================================================== *)
(** ** A second call on the same objects *)




(* ================================================================== *)
(** ** Further runs on the reference inputs *)

Lemma X1_witness :
  getUniqueAttributeNames range_stored
    (Attributes (Primary (c_state empties_caller))) !! "tags"
  = Some false.
Proof.
  destruct (X1_unique_attribute_names range_stored range_stored_valid
              (Attributes (Primary (c_state empties_caller)))) as [_ H].
  destruct (H "tags.%") as [Hl _]; [|exact Hl].
  vm_compute. eauto.
Defined.

Lemma X2_witness :
  AttributeToString no_wide_printables "ports"
    (VList [VInt KInt8 80; VInt KInt8 81])
  = Panics conversion_panic.
Proof.
  destruct (X2_narrow_integers no_wide_printables "ports" KInt8 80
              [VInt KInt8 81] (or_introl eq_refl))
    as (_ & _ & _ & _ & H & _).
  exact H.
Defined.

Lemma X3_witness :
  getDependsString no_wide_printables ["vpc"; "subnet"]
  = "depends_on = [" +:+ LF
    +:+ concat (map (strconv_Quote no_wide_printables) ["vpc"; "subnet"])
    +:+ "]" +:+ LF.
Proof.
  destruct (X3_depends_in_order no_wide_printables ["vpc"; "subnet"])
    as [_ H].
  apply H. discriminate.
Defined.

Lemma X4_witness :
  getPrimitiveAttributeString no_wide_printables "date" (VString "2017")
  = "date = " +:+ getPrimitiveValueString no_wide_printables (VString "2017")
    +:+ LF.
Proof.
  destruct (X4_date_carve_out no_wide_printables "date" (VString "2017"))
    as [_ H].
  apply H. vm_compute. discriminate.
Defined.

Lemma X5_witness :
  getAttributeString no_wide_printables "ports" mixed_ports
  = Returns ("ports = [" +:+ LF +:+ "80,unknown,unknown," +:+ "]" +:+ LF).
Proof.
  destruct (X5_primitive_list no_wide_printables "ports" (VInt KInt 80)
              [VMap [("port", VInt KInt 443)]; VOther "nil"] eq_refl)
    as [H _].
  exact H.
Defined.

Lemma X7_witness :
  getAttributeString no_wide_printables "rule" two_rules
  = Returns (concat ["rule {" +:+ LF +:+ "port = 80" +:+ LF +:+ "}" +:+ LF;
                     "rule {" +:+ LF +:+ "port = 443" +:+ LF +:+ "}" +:+ LF]).
Proof.
  apply (X7_one_block_per_element no_wide_printables "rule").
  repeat constructor.
  - exists [("port", VInt KInt 80)]. split; [reflexivity|].
    vm_compute. reflexivity.
  - exists [("port", VInt KInt 443)]. split; [reflexivity|].
    vm_compute. reflexivity.
Defined.

Lemma X10_witness :
  renderedAttributes range_stored expand_flat overlay_caller
  = [("name", VString "n"); ("region", VString "us-east-1")].
Proof.
  rewrite (X10_overlay_resolution range_stored expand_flat range_stored_valid
             overlay_caller).
  vm_compute. reflexivity.
Defined.


Lemma X12_witness :
  sanitizeResourceID "a.b.c" <> "a.b.c"
  /\ sanitizeResourceID (sanitizeResourceID "a.b.c") = sanitizeResourceID "a.b.c".
Proof.
  destruct (X12_sanitize_twice "a.b.c") as (_ & _ & H).
  apply H. reflexivity.
Defined.

Lemma X13_witness :
  getPrimitiveAttributeString no_wide_printables "note"
    (VString ("two" +:+ LF +:+ "lines"))
  = EmptyString
  \/ exists line,
       getPrimitiveAttributeString no_wide_printables "note"
         (VString ("two" +:+ LF +:+ "lines"))
       = line +:+ LF
       /\ mem "010"%char line = false.
Proof.
  destruct (X13_one_line no_wide_printables "note"
              (VString ("two" +:+ LF +:+ "lines"))) as [_ H].
  apply H. reflexivity.
Defined.

Lemma X14_witness :
  AttributeToString no_wide_printables "rule" two_rules
  = getAttributeString no_wide_printables "rule" two_rules.
Proof.
  destruct (X14_value_renderers_agree no_wide_printables "rule" two_rules
              eq_refl) as [H _].
  exact H.
Defined.

Lemma X15_witness :
  ResourceStateToConfigString no_wide_printables range_stored expand_flat
    format_verbatim overlay_caller
  = GetResourceStateConfigString no_wide_printables range_stored expand_flat
      format_verbatim overlay_caller.
Proof.
  apply X15_config_renderers_agree.
  apply Forall_forall. intros nv Hin. vm_compute in Hin.
  repeat (apply elem_of_cons in Hin as [->|Hin]; [reflexivity|]).
  inversion Hin.
Defined.

Lemma X16_witness :
  ResourceAsString no_wide_printables range_stored expand_flat format_verbatim
    plain_resource
  = fst (ResourceStateToConfigString no_wide_printables range_stored
           expand_flat format_verbatim
           {| c_state := plain_resource; c_defaults := ∅; c_excludes := ∅ |}).
Proof.
  apply (X16_resource_as_string no_wide_printables range_stored expand_flat
           format_verbatim range_stored_valid plain_resource).
  - reflexivity.
  - apply (bool_decide_unpack _). vm_compute. exact I.
Defined.

Lemma X17_witness :
  exists texts texts',
    texts ≡ₚ texts'
    /\ getMapAttributeString no_wide_printables "tags"
         [("a", VString "a"); ("b", VString "b")]
       = Returns ("tags {" +:+ LF +:+ concat texts +:+ "}" +:+ LF)
    /\ getMapAttributeString no_wide_printables "tags"
         [("b", VString "b"); ("a", VString "a")]
       = Returns ("tags {" +:+ LF +:+ concat texts' +:+ "}" +:+ LF).
Proof.
  destruct (getMapAttributeString no_wide_printables "tags"
              [("a", VString "a"); ("b", VString "b")]) as [out|msg] eqn:E;
    [|vm_compute in E; discriminate E].
  destruct (X17_map_order_rearranges no_wide_printables "tags"
              [("a", VString "a"); ("b", VString "b")]
              [("b", VString "b"); ("a", VString "a")] out
              (perm_swap _ _ _) E)
    as (texts & texts' & Hp & _ & _ & -> & H' & _).
  exists texts, texts'. split; [exact Hp|]. split; [reflexivity|exact H'].
Defined.
